(** * PVE firewall log to SQL converter: a shallow embedding

    This development embeds [InfluxDB_pve_firewall.py] and states the
    properties of its single function [generate_sql_from_pvefw_log].

    Conventions of the embedding.
    - A Python [str] is a list of characters; a character is a code point
      below 256 (the ASCII and Latin-1 blocks), carried by Rocq's [ascii].
      The character classes below are CPython's Unicode predicates on that
      range.
    - Python exceptions are values of a small error monad; [try]/[except]
      becomes a match on the raised exception.
    - A [dict] is an association list kept in insertion order, because the
      order of the fields decides the order of the emitted SQL columns.
    - The two files are entries of a finite map from paths to contents;
      the console is the list of printed lines.
    - [datetime.strptime] is CPython's [_strptime] for the one format the
      program uses, with the English month abbreviations of the C locale;
      [datetime.strftime] prints as CPython does on Linux. *)

From Stdlib Require Import Ascii String List Arith Lia Bool.
From stdpp Require Import strings gmap.
Import ListNotations.
Open Scope string_scope.
Open Scope nat_scope.
Open Scope list_scope.

Abbreviation str := (list ascii).
Coercion list_ascii_of_string : string >-> list.

(** ** Character classes *)

Definition code (c : ascii) : nat := nat_of_ascii c.

Definition between (lo hi : nat) (c : ascii) : bool :=
  (lo <=? code c) && (code c <=? hi).

Definition is_char (a c : ascii) : bool := Ascii.eqb a c.

(** [str.isspace], also the class [\s] of [re] and the separator set of
    [str.split()] and [str.strip()]. *)
Definition isspace (c : ascii) : bool :=
  between 9 13 c || between 28 32 c || (code c =? 133) || (code c =? 160).

(** [str.isdecimal], the class [\d] of [re]. *)
Definition isdecimal (c : ascii) : bool := between 48 57 c.

(** [str.isalnum]: letters, decimal digits, and the Latin-1 characters
    that Unicode classifies as alphabetic, digit or numeric. *)
Definition isalnum (c : ascii) : bool :=
  isdecimal c || between 65 90 c || between 97 122 c
  || (code c =? 170) || (code c =? 178) || (code c =? 179) || (code c =? 181)
  || (code c =? 185) || (code c =? 186) || between 188 190 c
  || between 192 214 c || between 216 246 c || between 248 255 c.

(** The class [\w] of [re]. *)
Definition isword (c : ascii) : bool := isalnum c || is_char "_" c.

(** The class [\S] of [re]. *)
Definition notspace (c : ascii) : bool := negb (isspace c).

(** The class [.] of [re] (no DOTALL flag): anything but a line feed. *)
Definition dot (c : ascii) : bool := negb (code c =? 10).

Definition lower_char (c : ascii) : ascii :=
  if between 65 90 c || between 192 214 c || between 216 222 c
  then ascii_of_nat (code c + 32) else c.

(** Equality of two characters up to case, as [re.IGNORECASE] compares. *)
Definition is_char_nocase (a c : ascii) : bool :=
  Ascii.eqb (lower_char a) (lower_char c).

(** ** Methods of [str] *)

Fixpoint str_eqb (a b : str) : bool :=
  match a, b with
  | [], [] => true
  | x :: a', y :: b' => Ascii.eqb x y && str_eqb a' b'
  | _, _ => false
  end.

(** [s.lower()] *)
Definition lower (s : str) : str := map lower_char s.

Fixpoint lstrip (s : str) : str :=
  match s with
  | c :: t => if isspace c then lstrip t else s
  | [] => []
  end.

Definition rstrip (s : str) : str := rev (lstrip (rev s)).

(** [s.strip()] *)
Definition strip (s : str) : str := rstrip (lstrip s).

(** [s.split()]: the maximal runs of characters that are not whitespace.
    [cur] holds, reversed, the run being read. *)
Fixpoint split_ws_from (cur : str) (s : str) : list str :=
  match s with
  | [] => match cur with [] => [] | _ => [rev cur] end
  | c :: t =>
      if isspace c
      then match cur with
           | [] => split_ws_from [] t
           | _ => rev cur :: split_ws_from [] t
           end
      else split_ws_from (c :: cur) t
  end.

Definition split_ws (s : str) : list str := split_ws_from [] s.

(** [s.startswith(p)], returning what follows the prefix. *)
Fixpoint strip_prefix (p s : str) : option str :=
  match p, s with
  | [], _ => Some s
  | x :: p', y :: s' => if Ascii.eqb x y then strip_prefix p' s' else None
  | _ :: _, [] => None
  end.

(** The first occurrence of a (non-empty) separator: the text before it
    and the text after it. *)
Fixpoint find_sep (sep s : str) : option (str * str) :=
  match strip_prefix sep s with
  | Some after => Some ([], after)
  | None =>
      match s with
      | [] => None
      | c :: t =>
          match find_sep sep t with
          | Some (before, after) => Some (c :: before, after)
          | None => None
          end
      end
  end.

(** [s.split(sep, 1)]: a list of one or two strings. *)
Definition split1 (sep s : str) : list str :=
  match find_sep sep s with
  | Some (before, after) => [before; after]
  | None => [s]
  end.

(** [l[-1]] on a non-empty list of strings. *)
Definition last_item (l : list str) : str := List.last l [].

(** [s.replace("'", "''")] *)
Definition escape_quotes (s : str) : str :=
  flat_map (fun c => if is_char "'" c then ["'"; "'"]%char else [c]) s.

(** [sep.join(l)] *)
Fixpoint join (sep : str) (l : list str) : str :=
  match l with
  | [] => []
  | [x] => x
  | x :: t => x ++ sep ++ join sep t
  end.

(** ** Values, exceptions and dictionaries *)

(** The values a record field can hold: a string or [None]. *)
Inductive pyval :=
| PNone
| PStr (s : str).

(** [str(val)] *)
Definition str_of (v : pyval) : str :=
  match v with
  | PNone => "None"
  | PStr s => s
  end.

Inductive exn :=
| ValueError
| KeyError (msg : str)
| TypeError (msg : str)
| AttributeError (msg : str).

Inductive res (A : Type) :=
| Ok (a : A)
| Raise (e : exn).
Arguments Ok {A} a.
Arguments Raise {A} e.

Definition bind {A B : Type} (m : res A) (f : A -> res B) : res B :=
  match m with
  | Ok a => f a
  | Raise e => Raise e
  end.

Notation "'let*' x ':=' m 'in' k" := (bind m (fun x => k))
  (at level 10, x name, m at level 100, k at level 200).

Definition exn_message (e : exn) : str :=
  match e with
  | ValueError => []
  | KeyError msg => msg
  | TypeError msg => msg
  | AttributeError msg => msg
  end.

Abbreviation dict := (list (str * pyval)).

(** [k in d] *)
Definition dict_mem (k : str) (d : dict) : bool :=
  existsb (fun kv => str_eqb k (fst kv)) d.

(** [d.get(k)] *)
Fixpoint dict_get (k : str) (d : dict) : option pyval :=
  match d with
  | [] => None
  | (k', v) :: t => if str_eqb k k' then Some v else dict_get k t
  end.

(** [d[k] = v]: an existing key keeps its place, a new key goes last. *)
Fixpoint dict_set (k : str) (v : pyval) (d : dict) : dict :=
  match d with
  | [] => [(k, v)]
  | (k', v') :: t =>
      if str_eqb k k' then (k', v) :: t else (k', v') :: dict_set k v t
  end.

(** [d.pop(k)]: the value and the rest, [KeyError] for an absent key. *)
Fixpoint dict_pop (k : str) (d : dict) : res (pyval * dict) :=
  match d with
  | [] => Raise (KeyError ("'" ++ k ++ "'"))
  | (k', v) :: t =>
      if str_eqb k k' then Ok (v, t)
      else let* x := dict_pop k t in Ok (fst x, (k', v) :: snd x)
  end.

(** [d.update(other)] *)
Definition dict_update (d other : dict) : dict :=
  fold_left (fun acc kv => dict_set (fst kv) (snd kv) acc) other d.

(** [dict(seqs)] where every element of [seqs] is a list of strings:
    an element whose length is not two raises [ValueError]. *)
Fixpoint dict_of_seqs (seqs : list (list str)) (acc : dict) : res dict :=
  match seqs with
  | [] => Ok acc
  | [k; v] :: t => dict_of_seqs t (dict_set k (PStr v) acc)
  | _ :: _ => Raise ValueError
  end.

(** ** The fragment of [re] the program and [_strptime] use

    A backtracking matcher in continuation-passing style: alternatives are
    tried left to right, repetitions and options are greedy, and the first
    way of matching the whole pattern wins, as in [re].  A state is the
    text still to read and the groups closed so far (latest first). *)

Inductive regex :=
| Eps
| Chr (cls : ascii -> bool)
| Cat (a b : regex)
| Alt (a b : regex)
| Opt (a : regex)
| Star (cls : ascii -> bool)
| Group (name : str) (a : regex).

Abbreviation captures := (list (str * str)).
Abbreviation mstate := (str * captures)%type.

Fixpoint rmatch (r : regex) (k : mstate -> option mstate) (st : mstate)
  : option mstate :=
  match r with
  | Eps => k st
  | Chr cls =>
      match fst st with
      | c :: t => if cls c then k (t, snd st) else None
      | [] => None
      end
  | Cat a b => rmatch a (rmatch b k) st
  | Alt a b =>
      match rmatch a k st with
      | Some m => Some m
      | None => rmatch b k st
      end
  | Opt a =>
      match rmatch a k st with
      | Some m => Some m
      | None => k st
      end
  | Star cls =>
      (fix star (s : str) : option mstate :=
         match s with
         | c :: t =>
             if cls c
             then match star t with
                  | Some m => Some m
                  | None => k (s, snd st)
                  end
             else k (s, snd st)
         | [] => k ([], snd st)
         end) (fst st)
  | Group name a =>
      rmatch a
        (fun st' =>
           let text := firstn (length (fst st) - length (fst st')) (fst st) in
           k (fst st', (name, text) :: snd st'))
        st
  end.

(** [pattern.match(s)]: anchored at the start, not at the end. *)
Definition re_match (r : regex) (s : str) : option mstate :=
  rmatch r Some (s, []).

Definition Seq (rs : list regex) : regex := fold_right Cat Eps rs.
Definition Lit (c : ascii) : regex := Chr (is_char c).
Definition Plus (cls : ascii -> bool) : regex := Cat (Chr cls) (Star cls).
Definition Rep (n : nat) (cls : ascii -> bool) : regex :=
  Seq (repeat (Chr cls) n).
Definition AnyOf (rs : list regex) : regex :=
  match rs with
  | [] => Eps
  | r :: rest => fold_left Alt rest r
  end.
(** A literal word under [re.IGNORECASE]. *)
Definition WordNoCase (w : str) : regex :=
  Seq (map (fun c => Chr (is_char_nocase c)) w).
(** The class [[lo-hi]] of decimal digits. *)
Definition Digits (lo hi : nat) : regex := Chr (between (48 + lo) (48 + hi)).

(** The names of the groups of a pattern, in the order they open. *)
Fixpoint group_names (r : regex) : list str :=
  match r with
  | Eps | Chr _ | Star _ => []
  | Cat a b | Alt a b => group_names a ++ group_names b
  | Opt a => group_names a
  | Group name a => name :: group_names a
  end.

(** [match.group(name)]: [None] for a group that took no part. *)
Definition group (name : str) (caps : captures) : pyval :=
  match find (fun c => str_eqb name (fst c)) caps with
  | Some c => PStr (snd c)
  | None => PNone
  end.

(** [match.groupdict()] *)
Definition groupdict (r : regex) (caps : captures) : dict :=
  map (fun name => (name, group name caps)) (group_names r).

(** ** The header pattern *)

(** [\d{2}/\w{3}/\d{4}:\d{2}:\d{2}:\d{2}\s-\d{4}] *)
Definition timestamp_pattern : regex :=
  Seq [ Rep 2 isdecimal; Lit "/"; Rep 3 isword; Lit "/";
        Rep 4 isdecimal; Lit ":"; Rep 2 isdecimal; Lit ":";
        Rep 2 isdecimal; Lit ":"; Rep 2 isdecimal;
        Chr isspace; Lit "-"; Rep 4 isdecimal ].

(** [log_pattern] *)
Definition log_pattern : regex :=
  Seq [ Group "pvefw_chain" (Plus notspace); Chr isspace;
        Group "log_timestamp" timestamp_pattern; Chr isspace;
        Group "action" (Plus isword); Lit ":"; Chr isspace;
        Group "kv_pairs" (Star dot) ].

(** ** [datetime.strptime] and [datetime.strftime]

    [strptime_regex] is the pattern [_strptime] builds for the format
    ['%d/%b/%Y:%H:%M:%S %z'] (compiled with [re.IGNORECASE]); [strptime]
    then converts the groups as [_strptime] does and builds the
    [datetime], whose constructor rejects impossible dates.  Every
    failure is a [ValueError]. *)

Definition month_abbr : list str :=
  [ "jan" : str; "feb" : str; "mar" : str; "apr" : str; "may" : str;
    "jun" : str; "jul" : str; "aug" : str; "sep" : str; "oct" : str;
    "nov" : str; "dec" : str ].

(** [\d{1,n+1}], greedy. *)
Fixpoint UpTo (n : nat) (cls : ascii -> bool) : regex :=
  match n with
  | 0 => Eps
  | S n' => Opt (Cat (Chr cls) (UpTo n' cls))
  end.

Definition strptime_regex : regex :=
  let d := Chr isdecimal in
  Seq [ Group "d" (AnyOf [ Cat (Lit "3") (Digits 0 1); Cat (Digits 1 2) d;
                           Cat (Lit "0") (Digits 1 9); Digits 1 9;
                           Cat (Lit " ") (Digits 1 9) ]);
        Lit "/";
        Group "b" (AnyOf (map WordNoCase month_abbr));
        Lit "/";
        Group "Y" (Rep 4 isdecimal);
        Lit ":";
        Group "H" (AnyOf [ Cat (Lit "2") (Digits 0 3); Cat (Digits 0 1) d; d ]);
        Lit ":";
        Group "M" (AnyOf [ Cat (Digits 0 5) d; d ]);
        Lit ":";
        Group "S" (AnyOf [ Cat (Lit "6") (Digits 0 1); Cat (Digits 0 5) d; d ]);
        Plus isspace;
        Group "z"
          (Alt (Seq [ Alt (Lit "+") (Lit "-"); d; d; Opt (Lit ":");
                      Digits 0 5; d;
                      Opt (Seq [ Opt (Lit ":"); Digits 0 5; d;
                                 Opt (Seq [ Lit "."; d; UpTo 5 isdecimal ]) ]) ])
               (Lit "Z")) ].

(** The text of a group that took part in the match. *)
Definition group_text (name : str) (caps : captures) : str :=
  str_of (group name caps).

(** [s[i:j]] for [i <= j]. *)
Definition slice (i j : nat) (s : str) : str := firstn (j - i) (skipn i s).

(** [s[i] == c] *)
Definition char_at_is (i : nat) (c : ascii) (s : str) : bool :=
  match nth_error s i with
  | Some x => Ascii.eqb x c
  | None => false
  end.

Definition digit_value (c : ascii) : nat := code c - 48.

(** [int(s)] for the strings [_strptime] gives it: decimal digits,
    surrounding whitespace ignored; anything else is a [ValueError]. *)
Definition py_int (s : str) : res nat :=
  match strip s with
  | [] => Raise ValueError
  | ds =>
      if forallb isdecimal ds
      then Ok (fold_left (fun n c => 10 * n + digit_value c) ds 0)
      else Raise ValueError
  end.

Fixpoint index_of (x : str) (l : list str) : option nat :=
  match l with
  | [] => None
  | y :: t => if str_eqb x y then Some 0 else option_map S (index_of x t)
  end.

(** The month number of a (lower-cased) abbreviation. *)
Definition month_number (b : str) : res nat :=
  match index_of b month_abbr with
  | Some i => Ok (S i)
  | None => Raise ValueError
  end.

(** The size, in seconds, of the UTC offset a [%z] group spells. *)
Definition utc_offset_seconds (z : str) : res nat :=
  if str_eqb z "Z" then Ok 0
  else
    let* z1 :=
      (if char_at_is 3 ":" z
       then let z' := firstn 3 z ++ skipn 4 z in
            if 5 <? length z'
            then if char_at_is 5 ":" z'
                 then Ok (firstn 5 z' ++ skipn 6 z')
                 else Raise ValueError
            else Ok z'
       else Ok z) in
    let* hours := py_int (slice 1 3 z1) in
    let* minutes := py_int (slice 3 5 z1) in
    let* seconds :=
      (match slice 5 7 z1 with
       | [] => Ok 0
       | t => py_int t
       end) in
    Ok (hours * 3600 + minutes * 60 + seconds).

Record datetime := mk_datetime {
  year : nat; month : nat; day : nat;
  hour : nat; minute : nat; second : nat }.

Definition is_leap (y : nat) : bool :=
  (y mod 4 =? 0) && (negb (y mod 100 =? 0) || (y mod 400 =? 0)).

Definition days_in_month (y m : nat) : nat :=
  match m with
  | 2 => if is_leap y then 29 else 28
  | 4 | 6 | 9 | 11 => 30
  | _ => 31
  end.

(** [datetime.datetime.strptime(s, '%d/%b/%Y:%H:%M:%S %z')].  The offset
    is checked (a [timezone] must be strictly within a day) and then
    plays no part in the fields of the result. *)
Definition strptime (data_string : str) : res datetime :=
  match re_match strptime_regex data_string with
  | None => Raise ValueError
  | Some (_ :: _, _) => Raise ValueError
  | Some ([], found) =>
      let* y := py_int (group_text "Y" found) in
      let* m := month_number (lower (group_text "b" found)) in
      let* d := py_int (group_text "d" found) in
      let* hh := py_int (group_text "H" found) in
      let* mm := py_int (group_text "M" found) in
      let* ss := py_int (group_text "S" found) in
      let* off := utc_offset_seconds (group_text "z" found) in
      if (1 <=? y) && (1 <=? d) && (d <=? days_in_month y m)
         && (ss <=? 59) && (off <? 24 * 3600)
      then Ok (mk_datetime y m d hh mm ss)
      else Raise ValueError
  end.

(** [n] written with [width] decimal digits. *)
Fixpoint zero_pad (width n : nat) : str :=
  match width with
  | 0 => []
  | S w => zero_pad w (n / 10) ++ [ascii_of_nat (48 + n mod 10)]
  end.

(** [%Y] as the C library of Linux prints it: the year in decimal with
    no padding, so a year below 1000 takes fewer than four characters.
    A [datetime] holds a year from 1 to 9999. *)
Definition year_text (y : nat) : str :=
  if y <? 10 then zero_pad 1 y
  else if y <? 100 then zero_pad 2 y
  else if y <? 1000 then zero_pad 3 y
  else zero_pad 4 y.

(** [dt.strftime('%Y-%m-%d %H:%M:%S')] *)
Definition strftime (dt : datetime) : str :=
  year_text (year dt) ++ "-" ++ zero_pad 2 (month dt) ++ "-"
  ++ zero_pad 2 (day dt) ++ " " ++ zero_pad 2 (hour dt) ++ ":"
  ++ zero_pad 2 (minute dt) ++ ":" ++ zero_pad 2 (second dt).

(** ** The program *)

Definition nl : str := [ascii_of_nat 10].

(** [all_columns] *)
Definition all_columns : list str :=
  [ "pvefw_chain" : str; "log_timestamp" : str; "action" : str; "IN" : str;
    "PHYSIN" : str; "PHYSOUT" : str; "MAC" : str; "SRC" : str; "DST" : str;
    "LEN" : str; "TOS" : str; "PREC" : str; "TTL" : str; "ID" : str;
    "PROTO" : str; "SPT" : str; "DPT" : str; "WINDOW" : str; "RES" : str;
    "SYN" : str; "URGP" : str; "ACK" : str; "PSH" : str; "RST" : str;
    "FIN" : str; "TYPE" : str; "CODE" : str ].

(** [column_types] *)
Definition column_types : list (str * str) :=
  [ ("id" : str, "INT AUTO_INCREMENT PRIMARY KEY" : str);
    ("pvefw_chain" : str, "VARCHAR(50)" : str);
    ("log_timestamp" : str, "DATETIME" : str);
    ("action" : str, "VARCHAR(20)" : str);
    ("IN" : str, "VARCHAR(20)" : str);
    ("PHYSIN" : str, "VARCHAR(20)" : str);
    ("PHYSOUT" : str, "VARCHAR(20)" : str);
    ("MAC" : str, "VARCHAR(50)" : str);
    ("SRC" : str, "VARCHAR(45)" : str);
    ("DST" : str, "VARCHAR(45)" : str);
    ("LEN" : str, "INT" : str);
    ("TOS" : str, "VARCHAR(10)" : str);
    ("PREC" : str, "VARCHAR(10)" : str);
    ("TTL" : str, "INT" : str);
    ("ID" : str, "INT" : str);
    ("PROTO" : str, "VARCHAR(10)" : str);
    ("SPT" : str, "INT" : str);
    ("DPT" : str, "INT" : str);
    ("WINDOW" : str, "INT" : str);
    ("RES" : str, "VARCHAR(10)" : str);
    ("SYN" : str, "BOOLEAN" : str);
    ("URGP" : str, "INT" : str);
    ("ACK" : str, "BOOLEAN" : str);
    ("PSH" : str, "BOOLEAN" : str);
    ("RST" : str, "BOOLEAN" : str);
    ("FIN" : str, "BOOLEAN" : str);
    ("TYPE" : str, "INT" : str);
    ("CODE" : str, "INT" : str) ].

(** [column_types.get(col, default)]; also [column_types[col]], which the
    program only applies to keys the table has. *)
Fixpoint column_types_get (col default : str) (d : list (str * str)) : str :=
  match d with
  | [] => default
  | (k, v) :: t => if str_eqb col k then v else column_types_get col default t
  end.

(** [fixed_columns] *)
Definition fixed_columns : list str :=
  [ "pvefw_chain" : str; "log_timestamp" : str; "action" : str ].

(** [col in l] *)
Definition str_in (col : str) (l : list str) : bool := existsb (str_eqb col) l.

(** One line of the column list of the CREATE TABLE statement. *)
Definition column_line (col ty : str) : str :=
  "    " ++ lower col ++ " " ++ ty ++ "," ++ nl.

(** The columns the second loop of the schema part writes. *)
Definition other_columns : list str :=
  List.filter (fun col => negb (str_in col fixed_columns)) all_columns.

(** The writes of the CREATE TABLE part, one element per [f_out.write]. *)
Definition create_table (table_name : str) : list str :=
  [ "-- Auto-generated CREATE TABLE statement for PVE Firewall logs" ++ nl;
    "CREATE TABLE IF NOT EXISTS " ++ table_name ++ " (" ++ nl;
    "    id " ++ column_types_get "id" [] column_types ++ "," ++ nl ]
  ++ map (fun col => column_line col (column_types_get col [] column_types))
       fixed_columns
  ++ map (fun col =>
            column_line col (column_types_get col "VARCHAR(255)" column_types))
       other_columns
  ++ [ "    raw_log TEXT" ++ nl;
       ");" ++ nl ++ nl;
       "-- DML to insert data" ++ nl ].

(** The chain marker of the normalisation step. *)
Definition marker : str := "PVEFW-HOST-IN".

(** [clean_line], after both assignments. *)
Definition clean_line (line : str) : str :=
  marker ++ last_item (split1 marker (strip line)).

(** [kv_pairs_str.split()]; [None] has no such method. *)
Definition split_method (v : pyval) : res (list str) :=
  match v with
  | PStr s => Ok (split_ws s)
  | PNone => Raise (AttributeError "'NoneType' object has no attribute 'split'")
  end.

(** [dict(pair.split('=', 1) for pair in kv_pairs_str.split())] *)
Definition kv_pairs (tokens : list str) : res dict :=
  dict_of_seqs (map (split1 "=") tokens) [].

(** [data[k]] *)
Definition dict_getitem (k : str) (d : dict) : res pyval :=
  match dict_get k d with
  | Some v => Ok v
  | None => Raise (KeyError ("'" ++ k ++ "'"))
  end.

(** The timestamp step: the [try] block around [strptime]/[strftime]. *)
Definition convert_timestamp (data : dict) : res dict :=
  let* ts := dict_getitem "log_timestamp" data in
  match ts with
  | PNone => Raise (TypeError "strptime() argument 1 must be str, not None")
  | PStr s =>
      match strptime s with
      | Ok dt_obj => Ok (dict_set "log_timestamp" (PStr (strftime dt_obj)) data)
      | Raise ValueError => Ok (dict_set "log_timestamp" PNone data)
      | Raise e => Raise e
      end
  end.

Definition flags : list str :=
  [ "SYN" : str; "ACK" : str; "PSH" : str; "RST" : str; "FIN" : str ].

(** The loop over the boolean flags. *)
Definition set_flags (data : dict) : dict :=
  fold_left
    (fun d flag => if dict_mem flag d then dict_set flag (PStr "1") d else d)
    flags data.

(** What the parsing half of the loop body does with a line. *)
Inductive parsed :=
| HeaderMismatch
| KeyValueMismatch
| Record (data : dict).

Definition parse_line (line : str) : res parsed :=
  match re_match log_pattern (clean_line line) with
  | None => Ok HeaderMismatch
  | Some m =>
      let data := groupdict log_pattern (snd m) in
      let* popped := dict_pop "kv_pairs" data in
      let kv_pairs_str := fst popped in
      let data := snd popped in
      let* tokens := split_method kv_pairs_str in
      match kv_pairs tokens with
      | Raise ValueError => Ok KeyValueMismatch
      | Raise e => Raise e
      | Ok kv =>
          let data := dict_update data kv in
          let* data := convert_timestamp data in
          Ok (Record (set_flags data))
      end
  end.

(** [columns_to_insert] *)
Definition columns_to_insert (data : dict) : list str :=
  ("raw_log" : str) :: map (fun kv => lower (fst kv)) data.

(** [values_to_insert] *)
Definition values_to_insert (line : str) (data : dict) : list str :=
  escape_quotes (strip line)
  :: map (fun kv => escape_quotes (str_of (snd kv))) data.

(** [insert_sql] *)
Definition insert_sql (table_name line : str) (data : dict) : str :=
  let columns_sql := join ", " (columns_to_insert data) in
  let values_sql := join "', '" (values_to_insert line data) in
  "INSERT INTO " ++ table_name ++ " (" ++ columns_sql ++ ") VALUES ('"
  ++ values_sql ++ "');" ++ nl.

(** The outcome of one iteration: a warning on the console and no write,
    or one write. *)
Inductive outcome :=
| Skipped (warning : str)
| Inserted (sql : str).

Definition process_line (table_name line : str) : res outcome :=
  let* p := parse_line line in
  match p with
  | HeaderMismatch =>
      Ok (Skipped ("Warning: Skipping malformed line: " ++ strip line))
  | KeyValueMismatch =>
      Ok (Skipped ("Warning: Could not parse key-value pairs in line: "
                   ++ strip line))
  | Record data => Ok (Inserted (insert_sql table_name line data))
  end.

(** ** The driver *)

(** What a run of the loop leaves behind: the strings written to the
    output file, the lines printed, and the exception that ended it. *)
Record effects := mk_effects {
  written : list str;
  console : list str;
  raised : option exn }.

(** [for line in f_in: ...] *)
Fixpoint for_lines (table_name : str) (lines : list str) : effects :=
  match lines with
  | [] => mk_effects [] [] None
  | line :: rest =>
      match process_line table_name line with
      | Ok (Skipped warning) =>
          let e := for_lines table_name rest in
          mk_effects (written e) (warning :: console e) (raised e)
      | Ok (Inserted sql) =>
          let e := for_lines table_name rest in
          mk_effects (sql :: written e) (console e) (raised e)
      | Raise e => mk_effects [] [] (Some e)
      end
  end.

(** The body of the [with] block for the lines of an opened input. *)
Definition convert (table_name : str) (lines : list str) : effects :=
  let e := for_lines table_name lines in
  mk_effects (create_table table_name ++ written e) (console e) (raised e).

(** Text mode reads with universal newlines: [\r\n] and [\r] become
    [\n]. *)
Fixpoint universal_newlines (s : str) : str :=
  match s with
  | [] => []
  | c :: t =>
      if code c =? 13
      then match t with
           | c' :: t' =>
               if code c' =? 10 then c' :: universal_newlines t'
               else ascii_of_nat 10 :: universal_newlines t
           | [] => [ascii_of_nat 10]
           end
      else c :: universal_newlines t
  end.

(** The lines a text yields, each with its line feed; [cur] holds,
    reversed, the line being read. *)
Fixpoint lines_from (cur : str) (s : str) : list str :=
  match s with
  | [] => match cur with [] => [] | _ => [rev cur] end
  | c :: t =>
      if code c =? 10 then rev (c :: cur) :: lines_from [] t
      else lines_from (c :: cur) t
  end.

(** The lines [for line in f_in] iterates over. *)
Definition file_lines (text : str) : list str :=
  lines_from [] (universal_newlines text).

(** The files, the paths opened for writing so far and the console. *)
Record world := mk_world {
  files : gmap str str;
  opened_for_writing : list str;
  printed : list str }.

(** [generate_sql_from_pvefw_log(input_file, output_file, table_name)]
    run on a file system.  The input is opened first, and a missing
    input ends the run there.  The branch for an input that exists
    describes the runs in which the output path can then be opened for
    writing, which creates or empties it, and the input decodes as text;
    a path is taken to name one file.  The input is read after the
    output was opened, so a run whose two paths are the same reads an
    empty file. *)
Definition generate_sql_from_pvefw_log
    (fs : gmap str str) (input_file output_file table_name : str) : world :=
  match fs !! input_file with
  | None =>
      mk_world fs []
        [ "Error: The file '" ++ input_file ++ "' was not found." ]
  | Some _ =>
      let fs1 := <[output_file := []]> fs in
      let text := default [] (fs1 !! input_file) in
      let e := convert table_name (file_lines text) in
      mk_world
        (<[output_file := List.concat (written e)]> fs1)
        [output_file]
        ([ "Reading from '" ++ input_file ++ "' and writing to '"
           ++ output_file ++ "'..." ]
         ++ console e
         ++ [ match raised e with
              | None => "Successfully generated SQL file." : str
              | Some x => "An unexpected error occurred: " ++ exn_message x
              end ])
  end.

(** ** Reading the output *)

(** [s.startswith(p)] *)
Definition starts_with (p s : str) : bool :=
  match strip_prefix p s with
  | Some _ => true
  | None => false
  end.

(** How many of the written strings open with the given keyword. *)
Definition count_statements (keyword : str) (writes : list str) : nat :=
  length (List.filter (starts_with keyword) writes).

(** How many whitespace characters a string holds. *)
Definition count_space (s : str) : nat := length (List.filter isspace s).

(** The record as the header groups leave it, before the key-value
    pairs are merged in. *)
Definition header_fields (chain ts action : str) : dict :=
  [ ("pvefw_chain" : str, PStr chain); ("log_timestamp" : str, PStr ts);
    ("action" : str, PStr action) ].

(** The value the timestamp step stores for a timestamp text. *)
Definition sql_timestamp (s : str) : pyval :=
  match strptime s with
  | Ok dt_obj => PStr (strftime dt_obj)
  | Raise _ => PNone
  end.

(** The four groups of a header match. *)
Definition chain_of (m : mstate) : str := group_text "pvefw_chain" (snd m).
Definition timestamp_of (m : mstate) : str :=
  group_text "log_timestamp" (snd m).
Definition action_of (m : mstate) : str := group_text "action" (snd m).
Definition tail_of (m : mstate) : str := group_text "kv_pairs" (snd m).


(** ** What it means for a text to match a pattern

    [matches r w c c']: the text [w] is one way for [r] to match, turning
    the closed groups [c] into [c'].  The matcher is sound for this
    relation, which is then what the proofs take apart. *)
Inductive matches : regex -> str -> captures -> captures -> Prop :=
| M_Eps c : matches Eps [] c c
| M_Chr cls x c : cls x = true -> matches (Chr cls) [x] c c
| M_Cat a b w1 w2 c0 c1 c2 :
    matches a w1 c0 c1 -> matches b w2 c1 c2 ->
    matches (Cat a b) (w1 ++ w2) c0 c2
| M_AltL a b w c0 c1 : matches a w c0 c1 -> matches (Alt a b) w c0 c1
| M_AltR a b w c0 c1 : matches b w c0 c1 -> matches (Alt a b) w c0 c1
| M_OptSome a w c0 c1 : matches a w c0 c1 -> matches (Opt a) w c0 c1
| M_OptNone a c : matches (Opt a) [] c c
| M_Star cls w c : forallb cls w = true -> matches (Star cls) w c c
| M_Group name a w c0 c1 :
    matches a w c0 c1 -> matches (Group name a) w c0 ((name, w) :: c1).

(** * Properties *)

(** ** Characters and strings *)

Ltac each_char c := destruct c as [[] [] [] [] [] [] [] []].

Lemma isdecimal_not_space (c : ascii) : isdecimal c = true -> isspace c = false.
Proof. each_char c; vm_compute; congruence. Qed.

Lemma isword_not_space (c : ascii) : isword c = true -> isspace c = false.
Proof. each_char c; vm_compute; congruence. Qed.

Lemma notspace_not_space (c : ascii) : notspace c = true -> isspace c = false.
Proof. unfold notspace. now destruct (isspace c). Qed.

Lemma is_char_eq (a c : ascii) : is_char a c = true -> c = a.
Proof. unfold is_char. intros H. apply Ascii.eqb_eq in H. congruence. Qed.

Ltac inv_matches :=
  repeat match goal with
    | H : matches (Cat _ _) _ _ _ |- _ => inversion H; subst; clear H
    | H : matches (Group _ _) _ _ _ |- _ => inversion H; subst; clear H
    | H : matches (Chr _) _ _ _ |- _ => inversion H; subst; clear H
    | H : matches (Star _) _ _ _ |- _ => inversion H; subst; clear H
    | H : matches Eps _ _ _ |- _ => inversion H; subst; clear H
    end.

Ltac class_facts :=
  repeat match goal with
    | H : is_char _ ?x = true |- _ => apply is_char_eq in H; subst x
    | H : isdecimal ?x = true |- _ => apply isdecimal_not_space in H
    | H : isword ?x = true |- _ => apply isword_not_space in H
    | H : notspace ?x = true |- _ => apply notspace_not_space in H
    end.

Lemma str_eqb_eq (a b : str) : str_eqb a b = true <-> a = b.
Proof.
  revert b. induction a as [|x a IH]; intros [|y b]; simpl; split;
    try congruence; try reflexivity.
  - intros H. apply andb_true_iff in H as [H1 H2].
    apply Ascii.eqb_eq in H1. apply IH in H2. congruence.
  - intros H. injection H as -> ->. rewrite Ascii.eqb_refl. simpl.
    now apply IH.
Qed.

Lemma str_eqb_refl (a : str) : str_eqb a a = true.
Proof. now apply str_eqb_eq. Qed.

Lemma str_eqb_neq (a b : str) : str_eqb a b = false <-> a <> b.
Proof.
  split.
  - intros H E. apply str_eqb_eq in E. congruence.
  - intros H. destruct (str_eqb a b) eqn:E; [|reflexivity].
    apply str_eqb_eq in E. contradiction.
Qed.

Lemma count_space_app (a b : str) :
  count_space (a ++ b) = count_space a + count_space b.
Proof. unfold count_space. now rewrite List.filter_app, length_app. Qed.

Lemma count_space_cons (c : ascii) (s : str) :
  count_space (c :: s) = (if isspace c then 1 else 0) + count_space s.
Proof. unfold count_space. simpl. now destruct (isspace c). Qed.

Lemma count_space_none (cls : ascii -> bool) (s : str) :
  (forall c, cls c = true -> isspace c = false) ->
  forallb cls s = true -> count_space s = 0.
Proof.
  intros Hcls. induction s as [|c s IH]; simpl; [reflexivity|].
  intros H. apply andb_true_iff in H as [Hc Hs].
  rewrite count_space_cons, (Hcls c Hc). now apply IH.
Qed.

(** ** The matcher is sound *)

Lemma rmatch_sound (r : regex) :
  forall k s c m,
    rmatch r k (s, c) = Some m ->
    exists w s' c', s = w ++ s' /\ matches r w c c' /\ k (s', c') = Some m.
Proof.
  induction r as [|cls|a IHa b IHb|a IHa b IHb|a IHa|cls|name a IHa];
    intros k s c m H; simpl in H.
  - exists [], s, c. repeat split; [constructor|assumption].
  - destruct s as [|x t]; [discriminate|].
    destruct (cls x) eqn:Hx; [|discriminate].
    exists [x], t, c. repeat split; [now constructor|assumption].
  - apply IHa in H as (w1 & s1 & c1 & -> & Ha & H).
    apply IHb in H as (w2 & s2 & c2 & -> & Hb & H).
    exists (w1 ++ w2), s2, c2. rewrite <- app_assoc.
    repeat split; [econstructor; eassumption|assumption].
  - destruct (rmatch a k (s, c)) as [m'|] eqn:Ha.
    + injection H as ->.
      apply IHa in Ha as (w & s' & c' & -> & Hw & Hk).
      exists w, s', c'. repeat split; [now apply M_AltL|assumption].
    + apply IHb in H as (w & s' & c' & -> & Hw & Hk).
      exists w, s', c'. repeat split; [now apply M_AltR|assumption].
  - destruct (rmatch a k (s, c)) as [m'|] eqn:Ha.
    + injection H as ->.
      apply IHa in Ha as (w & s' & c' & -> & Hw & Hk).
      exists w, s', c'. repeat split; [now apply M_OptSome|assumption].
    + exists [], s, c. repeat split; [apply M_OptNone|assumption].
  - revert H. induction s as [|x t IHt]; intros H.
    + exists [], [], c. repeat split; [now constructor|assumption].
    + destruct (cls x) eqn:Hx.
      * match type of H with
        | match ?star t with _ => _ end = _ => destruct (star t) as [m'|] eqn:Ht
        end.
        -- injection H as ->.
           destruct (IHt eq_refl) as (w & s' & c' & -> & Hw & Hk).
           inversion Hw; subst.
           exists (x :: w), s', c'. repeat split; [|assumption].
           constructor. simpl. now rewrite Hx.
        -- exists [], (x :: t), c. repeat split; [now constructor|assumption].
      * exists [], (x :: t), c. repeat split; [now constructor|assumption].
  - apply IHa in H as (w & s' & c' & -> & Hw & Hk). simpl in Hk.
    rewrite length_app, Nat.add_sub, firstn_app, Nat.sub_diag, firstn_all in Hk.
    simpl in Hk. rewrite app_nil_r in Hk.
    exists w, s', ((name, w) :: c'). repeat split; [now constructor|assumption].
Qed.

Lemma re_match_sound (r : regex) (s : str) (m : mstate) :
  re_match r s = Some m ->
  exists w, s = w ++ fst m /\ matches r w [] (snd m).
Proof.
  intros H. apply rmatch_sound in H as (w & s' & c' & -> & Hw & Hk).
  injection Hk as <-. now exists w.
Qed.

(** ** The header pattern, taken apart *)

Lemma matches_no_groups r w c c' :
  matches r w c c' -> group_names r = [] -> c' = c.
Proof.
  induction 1; simpl; intros G; try reflexivity; try discriminate; auto.
  - apply app_eq_nil in G as [Ga Gb].
    rewrite (IHmatches2 Gb). auto.
  - apply app_eq_nil in G as [Ga Gb]. auto.
  - apply app_eq_nil in G as [Ga Gb]. auto.
Qed.

Lemma timestamp_pattern_space ts c c' :
  matches timestamp_pattern ts c c' -> count_space ts = 1.
Proof.
  intros H. cbv [timestamp_pattern Seq Rep Lit fold_right repeat] in H.
  inv_matches. class_facts. simpl.
  repeat rewrite count_space_cons.
  repeat match goal with H : isspace _ = _ |- _ => rewrite H end.
  reflexivity.
Qed.

Lemma log_pattern_inv s m :
  re_match log_pattern s = Some m ->
  exists chain w1 ts w2 action w3 kv,
    s = chain ++ w1 :: ts ++ w2 :: action ++ ":" ++ w3 :: kv ++ fst m
    /\ snd m = [ ("kv_pairs" : str, kv); ("action" : str, action);
                 ("log_timestamp" : str, ts); ("pvefw_chain" : str, chain) ]
    /\ isspace w1 = true /\ isspace w2 = true /\ isspace w3 = true
    /\ count_space ts = 1
    /\ forallb notspace chain = true /\ forallb isword action = true.
Proof.
  intros H. apply re_match_sound in H as (w & Hs & H).
  cbv [log_pattern Seq Plus Lit fold_right] in H.
  inv_matches.
  match goal with
  | Hts : matches timestamp_pattern _ _ _ |- _ =>
      pose proof (matches_no_groups _ _ _ _ Hts eq_refl) as ->;
      apply timestamp_pattern_space in Hts
  end.
  match goal with
  | Hc : is_char _ ?x = true |- _ => apply is_char_eq in Hc; subst x
  end.
  match goal with
  | |- context [(([?x] ++ ?c) ++ [?a] ++ ?ts ++ [?b] ++ ([?y] ++ ?act)
                 ++ _ ++ [?d] ++ ?kv ++ []) ++ _] =>
      exists (x :: c), a, ts, b, (y :: act), d, kv
  end.
  split.
  { do 4 (simpl; rewrite <- ?app_assoc). rewrite ?app_nil_r. reflexivity. }
  split; [reflexivity|].
  simpl. rewrite !andb_true_iff. auto 10.
Qed.

(** ** Splitting *)

Lemma strip_prefix_spec p s r : strip_prefix p s = Some r -> s = p ++ r.
Proof.
  revert s. induction p as [|x p IH]; intros [|y s]; simpl; try congruence.
  destruct (Ascii.eqb x y) eqn:E; [|discriminate].
  apply Ascii.eqb_eq in E. intros H. apply IH in H. congruence.
Qed.

Lemma find_sep_spec sep s a b : find_sep sep s = Some (a, b) -> s = a ++ sep ++ b.
Proof.
  revert a. induction s as [|c s IH]; intros a; simpl.
  - destruct (strip_prefix sep []) eqn:E; [|discriminate].
    intros H. injection H as <- <-. now apply strip_prefix_spec in E.
  - destruct (strip_prefix sep (c :: s)) eqn:E.
    + intros H. injection H as <- <-. now apply strip_prefix_spec in E.
    + destruct (find_sep sep s) as [[a' b']|]; [|discriminate].
      intros H. injection H as <- <-. simpl. f_equal. now apply IH.
Qed.

Lemma find_char_none c s : find_sep [c] s = None <-> ~ In c s.
Proof.
  induction s as [|x s IH]; simpl.
  - tauto.
  - destruct (Ascii.eqb c x) eqn:E.
    + apply Ascii.eqb_eq in E. subst. split; [discriminate|]. intros H. exfalso. apply H. now left.
    + apply Ascii.eqb_neq in E.
      destruct (find_sep [c] s) as [[a b]|]; split; try discriminate; try reflexivity.
      * intros H. exfalso. destruct IH as [_ IH]. 
        assert (~ In c s) by (intros Hin; apply H; now right). specialize (IH H0). discriminate.
      * intros _ [H|H]; [congruence|]. now apply IH.
Qed.

Lemma split1_char c s :
  (~ In c s /\ split1 [c] s = [s])
  \/ (exists k v, s = k ++ c :: v /\ split1 [c] s = [k; v]).
Proof.
  unfold split1. destruct (find_sep [c] s) as [[a b]|] eqn:E.
  - right. exists a, b. split; [|reflexivity]. now apply find_sep_spec in E.
  - left. split; [|reflexivity]. now apply find_char_none.
Qed.

Lemma forallb_reverse (f : ascii -> bool) (l : str) :
  forallb f (rev l) = forallb f l.
Proof.
  induction l as [|c l IH]; simpl; [reflexivity|].
  rewrite forallb_app, IH. simpl. rewrite andb_true_r. apply andb_comm.
Qed.

Lemma split_ws_from_tokens cur s :
  forallb notspace cur = true ->
  Forall (fun tok => forallb notspace tok = true) (split_ws_from cur s).
Proof.
  revert cur. induction s as [|c s IH]; intros cur Hcur; simpl.
  - destruct cur; constructor; [|constructor].
    rewrite forallb_reverse. exact Hcur.
  - destruct (isspace c) eqn:Hc.
    + destruct cur.
      * now apply IH.
      * constructor; [|now apply IH]. rewrite forallb_reverse. exact Hcur.
    + apply IH. simpl. unfold notspace at 1. now rewrite Hc.
Qed.

Lemma split_ws_tokens s :
  Forall (fun tok => forallb notspace tok = true) (split_ws s).
Proof. now apply split_ws_from_tokens. Qed.

(** ** Dictionaries *)

Lemma dict_set_keys k v (d : dict) :
  map fst (dict_set k v d) = map fst d ++ (if dict_mem k d then [] else [k]).
Proof.
  induction d as [|[k' v'] d IH]; simpl; [reflexivity|].
  destruct (str_eqb k k') eqn:E; simpl.
  - now rewrite app_nil_r.
  - now rewrite IH.
Qed.

Lemma dict_set_Forall (Q : str * pyval -> Prop) k v (d : dict) :
  Q (k, v) -> Forall Q d -> Forall Q (dict_set k v d).
Proof.
  intros Hq. induction 1 as [|[k' v'] d Hx Hd IH]; simpl.
  - constructor; [assumption|constructor].
  - destruct (str_eqb k k') eqn:E.
    + apply str_eqb_eq in E. subst. constructor; assumption.
    + constructor; assumption.
Qed.

Lemma dict_update_Forall (Q : str * pyval -> Prop) (other d : dict) :
  Forall Q other -> Forall Q d -> Forall Q (dict_update d other).
Proof.
  unfold dict_update. intros Ho. revert d.
  induction Ho as [|[k v] other Hx Ho IH]; intros d Hd; simpl; [assumption|].
  apply IH. now apply dict_set_Forall.
Qed.

Lemma dict_update_keys (other d : dict) :
  exists extra, map fst (dict_update d other) = map fst d ++ extra
                /\ incl extra (map fst other).
Proof.
  unfold dict_update. revert d.
  induction other as [|[k v] other IH]; intros d; simpl.
  - exists []. split; [now rewrite app_nil_r|easy].
  - destruct (IH (dict_set k v d)) as (extra & E & Hincl).
    rewrite dict_set_keys, <- app_assoc in E.
    eexists. split; [exact E|].
    intros x Hx. apply in_app_or in Hx as [Hx|Hx].
    + destruct (dict_mem k d); [contradiction|]. 
      destruct Hx as [<-|[]]. now left.
    + right. now apply Hincl.
Qed.

Lemma dict_mem_In k (d : dict) : dict_mem k d = true <-> In k (map fst d).
Proof.
  unfold dict_mem. rewrite existsb_exists, in_map_iff. split.
  - intros (x & Hx & E). apply str_eqb_eq in E. exists x. now split.
  - intros (x & E & Hx). exists x. split; [assumption|]. now apply str_eqb_eq.
Qed.

Lemma dict_update_mem k (other d : dict) :
  dict_mem k other = true -> dict_mem k (dict_update d other) = true.
Proof.
  unfold dict_update. revert d.
  induction other as [|[k' v] other IH]; intros d; simpl; [discriminate|].
  destruct (str_eqb k k') eqn:E; simpl.
  - intros _. apply str_eqb_eq in E. subst k'.
    assert (H : dict_mem k (dict_set k v d) = true).
    { apply dict_mem_In. rewrite dict_set_keys. apply in_or_app.
      destruct (dict_mem k d) eqn:M; [left; now apply dict_mem_In|right; now left]. }
    revert H. generalize (dict_set k v d). clear.
    induction other as [|[k' v'] other IH]; intros d H; simpl; [assumption|].
    apply IH. apply dict_mem_In. rewrite dict_set_keys. apply in_or_app.
    left. now apply dict_mem_In.
  - apply IH.
Qed.

Lemma dict_get_set k k' v (d : dict) :
  dict_get k (dict_set k' v d) = if str_eqb k k' then Some v else dict_get k d.
Proof.
  induction d as [|[k0 v0] d IH]; simpl.
  - now destruct (str_eqb k k').
  - destruct (str_eqb k' k0) eqn:E0; simpl.
    + apply str_eqb_eq in E0. subst k0. now destruct (str_eqb k k').
    + rewrite IH. destruct (str_eqb k k0) eqn:E1; [|reflexivity].
      destruct (str_eqb k k') eqn:E2; [|reflexivity].
      apply str_eqb_eq in E1, E2. subst. rewrite str_eqb_refl in E0. discriminate.
Qed.

Lemma dict_get_In k v (d : dict) : dict_get k d = Some v -> In (k, v) d.
Proof.
  induction d as [|[k0 v0] d IH]; simpl; [discriminate|].
  destruct (str_eqb k k0) eqn:E.
  - apply str_eqb_eq in E. intros H. injection H as ->. subst. now left.
  - intros H. right. now apply IH.
Qed.

Lemma dict_get_mem k (d : dict) :
  dict_mem k d = true -> exists v, dict_get k d = Some v.
Proof.
  induction d as [|[k0 v0] d IH]; simpl; [discriminate|].
  destruct (str_eqb k k0); simpl; [now exists v0|assumption].
Qed.

(** ** Key-value pairs *)

Lemma dict_of_seqs_raise seqs acc e :
  dict_of_seqs seqs acc = Raise e -> e = ValueError.
Proof.
  revert acc. induction seqs as [|x seqs IH]; intros acc; simpl; [discriminate|].
  destruct x as [|k [|v [|y t]]]; try congruence. apply IH.
Qed.

Lemma kv_pairs_token_without_eq tokens :
  (exists tok, In tok tokens /\ ~ In "="%char tok) ->
  kv_pairs tokens = Raise ValueError.
Proof.
  unfold kv_pairs. generalize (@nil (str * pyval)) as acc.
  induction tokens as [|t tokens IH]; intros acc (tok & Hin & Hno).
  - destruct Hin.
  - simpl. destruct (split1_char "=" t) as [[Hn ->]|(k & v & -> & ->)].
    + reflexivity.
    + destruct Hin as [<-|Hin].
      * exfalso. apply Hno. apply in_or_app. right. now left.
      * apply IH. now exists tok.
Qed.

Lemma kv_pairs_values tokens kvd :
  Forall (fun tok => forallb notspace tok = true) tokens ->
  kv_pairs tokens = Ok kvd ->
  Forall (fun kv : str * pyval =>
            exists s, snd kv = PStr s /\ count_space s = 0) kvd.
Proof.
  unfold kv_pairs. intros Htok.
  assert (Hacc : Forall (fun kv : str * pyval =>
            exists s, snd kv = PStr s /\ count_space s = 0) []) by constructor.
  revert Hacc. generalize (@nil (str * pyval)) as acc.
  induction Htok as [|t tokens Ht Htok IH]; intros acc Hacc; simpl.
  - intros H. now injection H as <-.
  - destruct (split1_char "=" t) as [[Hn ->]|(k & v & -> & ->)]; [discriminate|].
    apply IH. apply dict_set_Forall; [|assumption].
    exists v. split; [reflexivity|].
    rewrite forallb_app in Ht. apply andb_true_iff in Ht as [_ Ht].
    simpl in Ht.
    apply (count_space_none notspace); [apply notspace_not_space|assumption].
Qed.

(** ** [strptime] *)

Lemma bind_raise {A B : Type} (m : res A) (f : A -> res B) e :
  bind m f = Raise e ->
  m = Raise e \/ exists a, m = Ok a /\ f a = Raise e.
Proof. destruct m as [a|e']; simpl; intros H; [right; now exists a|left; congruence]. Qed.

Lemma py_int_raise s e : py_int s = Raise e -> e = ValueError.
Proof.
  unfold py_int. destruct (strip s); [congruence|].
  destruct (forallb isdecimal (a :: l)); congruence.
Qed.

Lemma month_number_raise s e : month_number s = Raise e -> e = ValueError.
Proof. unfold month_number. destruct (index_of s month_abbr); congruence. Qed.

Ltac raise_cases H :=
  repeat (apply bind_raise in H as [H|(? & _ & H)];
          [first [now apply py_int_raise in H
                 |now apply month_number_raise in H
                 |idtac]|]).

Lemma utc_offset_seconds_raise s e :
  utc_offset_seconds s = Raise e -> e = ValueError.
Proof.
  unfold utc_offset_seconds. destruct (str_eqb s "Z"); [discriminate|].
  intros H. raise_cases H.
  - repeat match type of H with
      | context [if ?b then _ else _] => destruct b
      end; congruence.
  - destruct (slice 5 7 x) eqn:E; [discriminate|]. now apply py_int_raise in H.
  - discriminate.
Qed.

Lemma strptime_raise s e : strptime s = Raise e -> e = ValueError.
Proof.
  unfold strptime.
  destruct (re_match strptime_regex s) as [[[|x rest] found]|]; try congruence.
  intros H. raise_cases H.
  - now apply utc_offset_seconds_raise in H.
  - match type of H with
    | context [if ?b then _ else _] => destruct b
    end; congruence.
Qed.

Lemma strptime_needs_space s dt : strptime s = Ok dt -> count_space s <> 0.
Proof.
  unfold strptime.
  destruct (re_match strptime_regex s) as [m|] eqn:E; [|discriminate].
  intros _. apply re_match_sound in E as (w & -> & H).
  cbv [strptime_regex Seq Plus fold_right] in H.
  repeat match goal with
    | H : matches (Cat _ _) _ _ _ |- _ => inversion H; subst; clear H
    | H : matches (Chr isspace) _ _ _ |- _ => inversion H; subst; clear H
    end.
  repeat rewrite count_space_app.
  match goal with
  | H : isspace ?x = true |- _ => rewrite (count_space_cons x), H
  end. lia.
Qed.

(** ** The loop body, step by step *)

Lemma groupdict_matched s m :
  re_match log_pattern s = Some m ->
  groupdict log_pattern (snd m)
  = header_fields (chain_of m) (timestamp_of m) (action_of m)
    ++ [("kv_pairs" : str, PStr (tail_of m))].
Proof.
  intros H. apply log_pattern_inv in H
    as (chain & w1 & ts & w2 & action & w3 & kv & _ & Hc & _).
  unfold chain_of, timestamp_of, action_of, tail_of. rewrite Hc. reflexivity.
Qed.

Lemma parse_line_matched line m :
  re_match log_pattern (clean_line line) = Some m ->
  parse_line line
  = match kv_pairs (split_ws (tail_of m)) with
    | Ok kv =>
        let* data :=
          convert_timestamp
            (dict_update
               (header_fields (chain_of m) (timestamp_of m) (action_of m)) kv) in
        Ok (Record (set_flags data))
    | Raise _ => Ok KeyValueMismatch
    end.
Proof.
  intros H. unfold parse_line. rewrite H, (groupdict_matched _ _ H).
  simpl. destruct (kv_pairs (split_ws (tail_of m))) as [kv|e] eqn:E; [reflexivity|].
  apply dict_of_seqs_raise in E. now subst.
Qed.

Lemma convert_timestamp_spec (data : dict) s :
  dict_get "log_timestamp" data = Some (PStr s) ->
  convert_timestamp data
  = Ok (dict_set "log_timestamp" (sql_timestamp s) data).
Proof.
  intros H. unfold convert_timestamp, dict_getitem, sql_timestamp. rewrite H. simpl.
  destruct (strptime s) as [dt|e] eqn:E; [reflexivity|].
  apply strptime_raise in E. now subst.
Qed.

Lemma merged_shape chain ts action (kv : dict) :
  Forall (fun e : str * pyval => exists s, snd e = PStr s /\ count_space s = 0) kv ->
  exists c t a rest,
    dict_update (header_fields chain ts action) kv
    = ("pvefw_chain" : str, PStr c) :: ("log_timestamp" : str, PStr t)
      :: ("action" : str, PStr a) :: rest
    /\ (t = ts \/ count_space t = 0)
    /\ incl (map fst rest) (map fst kv)
    /\ (forall k, dict_mem k kv = true ->
                  dict_mem k (header_fields chain ts action) = false ->
                  dict_mem k rest = true).
Proof.
  intros Hkv.
  pose (Q := fun e : str * pyval =>
               exists s, snd e = PStr s
                         /\ (fst e = ("log_timestamp" : str) -> s = ts \/ count_space s = 0)).
  assert (HQ : Forall Q (dict_update (header_fields chain ts action) kv)).
  { apply dict_update_Forall.
    - eapply List.Forall_impl; [|exact Hkv]. intros [k v] (s & E & Hs).
      exists s. split; [assumption|]. intros _. now right.
    - repeat constructor; eexists; (split; [reflexivity|]); simpl; intros E;
        first [now left | discriminate E]. }
  destruct (dict_update_keys kv (header_fields chain ts action))
    as (extra & Hkeys & Hincl).
  pose proof (fun k => dict_update_mem k kv (header_fields chain ts action)) as Hmem.
  destruct (dict_update (header_fields chain ts action) kv)
    as [|[k1 v1] [|[k2 v2] [|[k3 v3] rest]]]; try discriminate Hkeys.
  simpl in Hkeys. injection Hkeys as -> -> -> <-.
  inversion HQ as [|? ? (c & E1 & _) HQ1]; subst.
  inversion HQ1 as [|? ? (t & E2 & Ht) HQ2]; subst.
  inversion HQ2 as [|? ? (a & E3 & _) _]; subst.
  simpl in E1, E2, E3. subst v1 v2 v3.
  exists c, t, a, rest. split; [reflexivity|].
  split; [now apply Ht|]. split; [assumption|].
  intros k Hk Hh. specialize (Hmem k Hk).
  unfold header_fields in Hh. simpl in Hh, Hmem.
  apply orb_false_iff in Hh as [H1 Hh]. apply orb_false_iff in Hh as [H2 Hh].
  apply orb_false_iff in Hh as [H3 _].
  rewrite H1, H2, H3 in Hmem. exact Hmem.
Qed.

(** ** The flags and the shape of a record *)

Lemma dict_mem_app k (p rest : dict) :
  dict_mem k (p ++ rest) = dict_mem k p || dict_mem k rest.
Proof. unfold dict_mem. apply existsb_app. Qed.

Lemma dict_set_after k v (p rest : dict) :
  dict_mem k p = false -> dict_set k v (p ++ rest) = p ++ dict_set k v rest.
Proof.
  induction p as [|[k' v'] p IH]; simpl; [reflexivity|].
  intros H. apply orb_false_iff in H as [H1 H2].
  rewrite H1. now rewrite IH.
Qed.

Lemma flags_after (fl : list str) (p rest : dict) :
  (forall f, In f fl -> dict_mem f p = false) ->
  fold_left
    (fun d flag => if dict_mem flag d then dict_set flag (PStr "1") d else d)
    fl (p ++ rest)
  = p ++ fold_left
           (fun d flag => if dict_mem flag d then dict_set flag (PStr "1") d else d)
           fl rest.
Proof.
  revert rest. induction fl as [|f fl IH]; intros rest H; simpl; [reflexivity|].
  rewrite dict_mem_app, (H f (or_introl eq_refl)). simpl.
  destruct (dict_mem f rest).
  - rewrite dict_set_after by (apply H; now left).
    apply IH. intros g Hg. apply H. now right.
  - apply IH. intros g Hg. apply H. now right.
Qed.

Lemma set_flags_header (c t a : pyval) (rest : dict) :
  set_flags (("pvefw_chain" : str, c) :: ("log_timestamp" : str, t)
             :: ("action" : str, a) :: rest)
  = ("pvefw_chain" : str, c) :: ("log_timestamp" : str, t)
    :: ("action" : str, a) :: set_flags rest.
Proof.
  unfold set_flags.
  apply (flags_after flags [(_, c); (_, t); (_, a)] rest).
  intros f Hf. unfold flags in Hf. simpl in Hf.
  repeat (destruct Hf as [<-|Hf]; [reflexivity|]). destruct Hf.
Qed.

Lemma parse_line_record line m kv :
  re_match log_pattern (clean_line line) = Some m ->
  kv_pairs (split_ws (tail_of m)) = Ok kv ->
  exists c t a rest,
    dict_update (header_fields (chain_of m) (timestamp_of m) (action_of m)) kv
    = ("pvefw_chain" : str, PStr c) :: ("log_timestamp" : str, PStr t)
      :: ("action" : str, PStr a) :: rest
    /\ (t = timestamp_of m \/ count_space t = 0)
    /\ incl (map fst rest) (map fst kv)
    /\ (forall k, dict_mem k kv = true ->
                  dict_mem k (header_fields (chain_of m) (timestamp_of m)
                                (action_of m)) = false ->
                  dict_mem k rest = true)
    /\ parse_line line
       = Ok (Record (("pvefw_chain" : str, PStr c)
                     :: ("log_timestamp" : str, sql_timestamp t)
                     :: ("action" : str, PStr a) :: set_flags rest)).
Proof.
  intros Hm Hkv.
  destruct (merged_shape (chain_of m) (timestamp_of m) (action_of m) kv)
    as (c & t & a & rest & E & Ht & Hincl & Hmem).
  { eapply kv_pairs_values; [apply split_ws_tokens|exact Hkv]. }
  exists c, t, a, rest. repeat split; try assumption.
  rewrite (parse_line_matched _ _ Hm), Hkv, E.
  rewrite (convert_timestamp_spec _ t) by reflexivity.
  simpl. now rewrite set_flags_header.
Qed.

(** ** The loop *)

Lemma process_line_inserted table_name line sql :
  process_line table_name line = Ok (Inserted sql) ->
  exists data, parse_line line = Ok (Record data)
               /\ sql = insert_sql table_name line data.
Proof.
  unfold process_line. destruct (parse_line line) as [[| |data]|e]; simpl;
    try discriminate.
  intros H. injection H as <-. now exists data.
Qed.

Lemma insert_sql_starts table_name line data :
  starts_with "INSERT INTO " (insert_sql table_name line data) = true.
Proof. reflexivity. Qed.

Lemma for_lines_inserts table_name lines :
  Forall (fun w => starts_with "INSERT INTO " w = true)
    (written (for_lines table_name lines)).
Proof.
  induction lines as [|line lines IH]; simpl; [constructor|].
  destruct (process_line table_name line) as [[w|sql]|e] eqn:E; simpl;
    [assumption| |constructor].
  constructor; [|assumption].
  apply process_line_inserted in E as (data & _ & ->).
  apply insert_sql_starts.
Qed.

Lemma skipped_line_leaves_output table_name line warning :
  process_line table_name line = Ok (Skipped warning) ->
  forall before after,
    written (for_lines table_name (before ++ line :: after))
    = written (for_lines table_name (before ++ after))
    /\ raised (for_lines table_name (before ++ line :: after))
       = raised (for_lines table_name (before ++ after)).
Proof.
  intros H before after. induction before as [|l before [IH1 IH2]]; simpl.
  - rewrite H. simpl. now split.
  - destruct (process_line table_name l) as [[w|sql]|e]; simpl;
      [| |now split]; rewrite IH1, IH2; now split.
Qed.

Lemma count_statements_app keyword (a b : list str) :
  count_statements keyword (a ++ b)
  = count_statements keyword a + count_statements keyword b.
Proof. unfold count_statements. now rewrite List.filter_app, length_app. Qed.

Lemma count_statements_none keyword prefix (ws : list str) :
  (forall w, starts_with prefix w = true -> starts_with keyword w = false) ->
  Forall (fun w => starts_with prefix w = true) ws ->
  count_statements keyword ws = 0.
Proof.
  intros Hk. unfold count_statements.
  induction 1 as [|w ws Hw _ IH]; simpl; [reflexivity|].
  now rewrite (Hk w Hw).
Qed.

Lemma count_statements_all keyword (ws : list str) :
  Forall (fun w => starts_with keyword w = true) ws ->
  count_statements keyword ws = length ws.
Proof.
  unfold count_statements.
  induction 1 as [|w ws Hw _ IH]; simpl; [reflexivity|].
  rewrite Hw. simpl. now rewrite IH.
Qed.

Lemma insert_is_not_create w :
  starts_with "INSERT INTO " w = true -> starts_with "CREATE TABLE" w = false.
Proof.
  unfold starts_with at 1.
  destruct (strip_prefix "INSERT INTO " w) as [r|] eqn:E; [|discriminate].
  apply strip_prefix_spec in E. now subst w.
Qed.

Lemma create_table_counts table_name :
  count_statements "CREATE TABLE" (create_table table_name) = 1
  /\ count_statements "INSERT INTO" (create_table table_name) = 0.
Proof. split; vm_compute; reflexivity. Qed.

(** * The claims *)

(** ** C1 *)

(** C1.  A line whose timestamp token is [25/Dec/2024:10:00:00 +0000] is
    not converted: the header pattern spells the sign of the offset as a
    literal minus, so the line is reported as malformed and skipped, for
    every table name.  The conversion step itself accepts the token and
    yields [2024-12-25 10:00:00], and the same line with the offset
    [-0000] is emitted with that value. *)
Theorem C1_positive_offset_line_is_skipped (table_name : str) :
  process_line table_name
    "PVEFW-HOST-IN 25/Dec/2024:10:00:00 +0000 DROP: IN=eth0"
  = Ok (Skipped ("Warning: Skipping malformed line: "
                 ++ "PVEFW-HOST-IN 25/Dec/2024:10:00:00 +0000 DROP: IN=eth0"))
  /\ sql_timestamp "25/Dec/2024:10:00:00 +0000" = PStr "2024-12-25 10:00:00"
  /\ process_line table_name
       "PVEFW-HOST-IN 25/Dec/2024:10:00:00 -0000 DROP: IN=eth0"
     = Ok (Inserted
             ("INSERT INTO " ++ table_name
              ++ " (raw_log, pvefw_chain, log_timestamp, action, in) VALUES ('"
              ++ "PVEFW-HOST-IN 25/Dec/2024:10:00:00 -0000 DROP: IN=eth0"
              ++ "', 'PVEFW-HOST-IN', '2024-12-25 10:00:00', 'DROP', 'eth0');"
              ++ nl)).
Proof.
  split; [|split].
  - vm_compute. reflexivity.
  - vm_compute. reflexivity.
  - vm_compute. reflexivity.
Qed.

(** ** C2 *)

(** C2.  A line in which the chain marker does not occur is not parsed as
    it stands: the marker is put in front of it, so the chain field of the
    emitted row is the marker glued to the line's first token.  Whatever
    the line, the text the pattern is matched against is the marker
    followed by what follows the marker's first occurrence, or by the
    whole stripped line when there is none. *)
Theorem C2_marker_is_prepended_when_absent (table_name : str) :
  (forall line,
     clean_line line
     = marker ++ match find_sep marker (strip line) with
                 | Some (_, after) => after
                 | None => strip line
                 end)
  /\ find_sep marker "PVEFW-FWBR-IN 25/Dec/2024:10:00:00 -0500 DROP: IN=eth0"
     = None
  /\ clean_line "PVEFW-FWBR-IN 25/Dec/2024:10:00:00 -0500 DROP: IN=eth0"
     = "PVEFW-HOST-INPVEFW-FWBR-IN 25/Dec/2024:10:00:00 -0500 DROP: IN=eth0"
  /\ process_line table_name
       "PVEFW-FWBR-IN 25/Dec/2024:10:00:00 -0500 DROP: IN=eth0"
     = Ok (Inserted
             ("INSERT INTO " ++ table_name
              ++ " (raw_log, pvefw_chain, log_timestamp, action, in) VALUES ('"
              ++ "PVEFW-FWBR-IN 25/Dec/2024:10:00:00 -0500 DROP: IN=eth0"
              ++ "', 'PVEFW-HOST-INPVEFW-FWBR-IN', '2024-12-25 10:00:00', "
              ++ "'DROP', 'eth0');" ++ nl)).
Proof.
  split; [|split; [|split]]; try (vm_compute; reflexivity).
  intros line. unfold clean_line, split1, last_item.
  now destruct (find_sep marker (strip line)) as [[before after]|].
Qed.

(** ** C3 *)

(** C3.  An input of two lines, one well-formed with the offset [+0000]
    and one malformed, does not give one INSERT statement: the header
    pattern wants a minus sign in the offset, so both lines are reported
    as malformed and the output is the CREATE TABLE part alone, for every
    table name.  The same input with the offset [-0000] gives the CREATE
    TABLE part and one INSERT. *)
Theorem C3_positive_offset_pair_gives_no_insert (table_name : str) :
  let good : str :=
    "PVEFW-HOST-IN 25/Dec/2024:10:00:00 +0000 DROP: IN=eth0" ++ nl in
  let good_minus : str :=
    "PVEFW-HOST-IN 25/Dec/2024:10:00:00 -0000 DROP: IN=eth0" ++ nl in
  let bad : str := "not a firewall line" ++ nl in
  written (convert table_name [good; bad]) = create_table table_name
  /\ console (convert table_name [good; bad])
     = [ "Warning: Skipping malformed line: "
         ++ "PVEFW-HOST-IN 25/Dec/2024:10:00:00 +0000 DROP: IN=eth0";
         "Warning: Skipping malformed line: not a firewall line" : str ]
  /\ count_statements "CREATE TABLE" (written (convert table_name [good; bad]))
     = 1
  /\ count_statements "INSERT INTO" (written (convert table_name [good; bad]))
     = 0
  /\ count_statements "CREATE TABLE"
       (written (convert table_name [good_minus; bad]))
     = 1
  /\ count_statements "INSERT INTO"
       (written (convert table_name [good_minus; bad]))
     = 1.
Proof.
  cbv zeta. repeat split; vm_compute; reflexivity.
Qed.

(** ** C4 *)

(** C4.  When the header matches and one whitespace-separated token of the
    key-value tail holds no [=], the line is skipped as a whole: a warning
    is printed, nothing is written for it, and the output of the run is
    the output of the run without that line, the following lines
    included. *)
Theorem C4_token_without_equals_skips_line
    (table_name line : str) (m : mstate) :
  re_match log_pattern (clean_line line) = Some m ->
  (exists tok, In tok (split_ws (tail_of m)) /\ ~ In "="%char tok) ->
  parse_line line = Ok KeyValueMismatch
  /\ process_line table_name line
     = Ok (Skipped ("Warning: Could not parse key-value pairs in line: "
                    ++ strip line))
  /\ (forall before after,
        written (convert table_name (before ++ line :: after))
        = written (convert table_name (before ++ after))
        /\ raised (convert table_name (before ++ line :: after))
           = raised (convert table_name (before ++ after))).
Proof.
  intros Hm Htok.
  assert (Hp : parse_line line = Ok KeyValueMismatch).
  { rewrite (parse_line_matched _ _ Hm).
    now rewrite (kv_pairs_token_without_eq _ Htok). }
  assert (Hskip : process_line table_name line
                  = Ok (Skipped
                          ("Warning: Could not parse key-value pairs in line: "
                           ++ strip line))).
  { unfold process_line. now rewrite Hp. }
  split; [exact Hp|]. split; [exact Hskip|].
  intros before after. unfold convert. simpl.
  destruct (skipped_line_leaves_output _ _ _ Hskip before after) as [E1 E2].
  now rewrite E1, E2.
Qed.

Lemma C4_witness :
  parse_line "PVEFW-HOST-IN 25/Dec/2024:10:00:00 -0500 DROP: IN=eth0 SYN"
  = Ok KeyValueMismatch.
Proof.
  eapply (C4_token_without_equals_skips_line "t").
  - vm_compute. reflexivity.
  - exists ("SYN" : str). split.
    + vm_compute. auto.
    + vm_compute. intuition discriminate.
Defined.

(** ** C7 *)

(** C7.  Whatever the table name and the input lines, the output opens
    with the same CREATE TABLE part, written once: the surrogate key, the
    chain, timestamp and action columns, the other catalog columns in the
    order of [all_columns], and [raw_log] last.  Everything written after
    it is an INSERT statement. *)
Theorem C7_create_table_is_fixed (table_name : str) (lines : list str) :
  create_table table_name
  = [ "-- Auto-generated CREATE TABLE statement for PVE Firewall logs" ++ nl;
      "CREATE TABLE IF NOT EXISTS " ++ table_name ++ " (" ++ nl;
      "    id INT AUTO_INCREMENT PRIMARY KEY," ++ nl;
      "    pvefw_chain VARCHAR(50)," ++ nl;
      "    log_timestamp DATETIME," ++ nl;
      "    action VARCHAR(20)," ++ nl;
      "    in VARCHAR(20)," ++ nl;
      "    physin VARCHAR(20)," ++ nl;
      "    physout VARCHAR(20)," ++ nl;
      "    mac VARCHAR(50)," ++ nl;
      "    src VARCHAR(45)," ++ nl;
      "    dst VARCHAR(45)," ++ nl;
      "    len INT," ++ nl;
      "    tos VARCHAR(10)," ++ nl;
      "    prec VARCHAR(10)," ++ nl;
      "    ttl INT," ++ nl;
      "    id INT," ++ nl;
      "    proto VARCHAR(10)," ++ nl;
      "    spt INT," ++ nl;
      "    dpt INT," ++ nl;
      "    window INT," ++ nl;
      "    res VARCHAR(10)," ++ nl;
      "    syn BOOLEAN," ++ nl;
      "    urgp INT," ++ nl;
      "    ack BOOLEAN," ++ nl;
      "    psh BOOLEAN," ++ nl;
      "    rst BOOLEAN," ++ nl;
      "    fin BOOLEAN," ++ nl;
      "    type INT," ++ nl;
      "    code INT," ++ nl;
      "    raw_log TEXT" ++ nl;
      ");" ++ nl ++ nl;
      "-- DML to insert data" ++ nl ]
  /\ (exists inserts,
        written (convert table_name lines) = create_table table_name ++ inserts
        /\ Forall (fun w => starts_with "INSERT INTO " w = true) inserts)
  /\ count_statements "CREATE TABLE" (written (convert table_name lines)) = 1.
Proof.
  split; [vm_compute; reflexivity|]. split.
  - exists (written (for_lines table_name lines)).
    split; [reflexivity|apply for_lines_inserts].
  - unfold convert. cbn [written]. rewrite count_statements_app.
    destruct (create_table_counts table_name) as [-> _].
    rewrite (count_statements_none _ "INSERT INTO ");
      [reflexivity|apply insert_is_not_create|apply for_lines_inserts].
Qed.

(** ** C9 *)

(** C9.  When the input path names no file, the run opens no file for
    writing and leaves every file as it was, the output path included;
    all it does is print the error message. *)
Theorem C9_missing_input_writes_nothing
    (fs : gmap str str) (input_file output_file table_name : str) :
  fs !! input_file = None ->
  generate_sql_from_pvefw_log fs input_file output_file table_name
  = mk_world fs []
      [ "Error: The file '" ++ input_file ++ "' was not found." ].
Proof.
  intros H. unfold generate_sql_from_pvefw_log. now rewrite H.
Qed.

Lemma C9_witness :
  (∅ : gmap str str) !! ("fw.log" : str) = None
  /\ files (generate_sql_from_pvefw_log ∅ "fw.log" "out.sql" "t") = ∅
  /\ opened_for_writing (generate_sql_from_pvefw_log ∅ "fw.log" "out.sql" "t")
     = [].
Proof.
  split; [reflexivity|].
  rewrite (C9_missing_input_writes_nothing ∅ "fw.log" "out.sql" "t");
    [split; reflexivity|reflexivity].
Defined.

(** ** C5 *)

Lemma join_cons sep x (l : list str) :
  join sep (x :: l) = x ++ List.concat (map (fun y => sep ++ y) l).
Proof.
  revert x. induction l as [|y l IH]; intros x.
  - simpl. now rewrite app_nil_r.
  - change (join sep (x :: y :: l)) with (x ++ sep ++ join sep (y :: l)).
    rewrite IH. simpl. now rewrite <- app_assoc.
Qed.

Lemma insert_sql_text table_name line (data : dict) :
  insert_sql table_name line data
  = "INSERT INTO " ++ table_name ++ " (raw_log"
    ++ List.concat (map (fun e => ", " ++ lower (fst e)) data)
    ++ ") VALUES ('" ++ escape_quotes (strip line)
    ++ List.concat
         (map (fun e => "', '" ++ escape_quotes (str_of (snd e))) data)
    ++ "');" ++ nl.
Proof.
  unfold insert_sql, columns_to_insert, values_to_insert.
  rewrite !join_cons, !map_map, <- !app_assoc. reflexivity.
Qed.

Lemma sql_timestamp_without_space t :
  count_space t = 0 -> sql_timestamp t = PNone.
Proof.
  intros H. unfold sql_timestamp.
  destruct (strptime t) as [dt|e] eqn:E; [|reflexivity].
  now apply strptime_needs_space in E.
Qed.

(** C5, as the program has it.  When the header matches, every token of
    the key-value tail holds an [=], and the timestamp token does not
    reparse, the line is emitted: the record keeps [None] for
    [log_timestamp], and the INSERT statement carries it as the quoted
    text ['None'], third among the values. *)
Theorem C5_unparsable_timestamp_is_emitted_as_None
    (table_name line : str) (m : mstate) (kv : dict) :
  re_match log_pattern (clean_line line) = Some m ->
  kv_pairs (split_ws (tail_of m)) = Ok kv ->
  strptime (timestamp_of m) = Raise ValueError ->
  exists chain action rest,
    parse_line line
    = Ok (Record (("pvefw_chain" : str, PStr chain)
                  :: ("log_timestamp" : str, PNone)
                  :: ("action" : str, PStr action) :: rest))
    /\ process_line table_name line
       = Ok (Inserted
               ("INSERT INTO " ++ table_name
                ++ " (raw_log, pvefw_chain, log_timestamp, action"
                ++ List.concat (map (fun e => ", " ++ lower (fst e)) rest)
                ++ ") VALUES ('" ++ escape_quotes (strip line)
                ++ "', '" ++ escape_quotes chain
                ++ "', 'None', '" ++ escape_quotes action
                ++ List.concat
                     (map (fun e => "', '" ++ escape_quotes (str_of (snd e)))
                        rest)
                ++ "');" ++ nl)).
Proof.
  intros Hm Hkv Hts.
  destruct (parse_line_record _ _ _ Hm Hkv)
    as (c & t & a & rest & _ & Ht & _ & _ & Hp).
  assert (Hnone : sql_timestamp t = PNone).
  { destruct Ht as [-> | Ht]; [|now apply sql_timestamp_without_space].
    unfold sql_timestamp. now rewrite Hts. }
  rewrite Hnone in Hp.
  exists c, a, (set_flags rest). split; [exact Hp|].
  unfold process_line. rewrite Hp. simpl bind. cbv iota.
  rewrite insert_sql_text. do 2 f_equal.
  do 4 (simpl; rewrite <- ?app_assoc). reflexivity.
Qed.

Lemma C5_witness :
  strptime "31/Feb/2024:10:00:00 -0500" = Raise ValueError
  /\ exists chain action rest,
    parse_line "PVEFW-HOST-IN 31/Feb/2024:10:00:00 -0500 DROP: IN=eth0"
    = Ok (Record (("pvefw_chain" : str, PStr chain)
                  :: ("log_timestamp" : str, PNone)
                  :: ("action" : str, PStr action) :: rest)).
Proof.
  split; [vm_compute; reflexivity|].
  destruct (C5_unparsable_timestamp_is_emitted_as_None "t"
              "PVEFW-HOST-IN 31/Feb/2024:10:00:00 -0500 DROP: IN=eth0"
              ([], [ ("kv_pairs" : str, "IN=eth0" : str);
                     ("action" : str, "DROP" : str);
                     ("log_timestamp" : str,
                      "31/Feb/2024:10:00:00 -0500" : str);
                     ("pvefw_chain" : str, "PVEFW-HOST-IN" : str) ])
              [ ("IN" : str, PStr "eth0") ])
    as (chain & action & rest & H & _);
    [vm_compute; reflexivity ..|].
  now exists chain, action, rest.
Defined.

(** The claim as it was stated fails: this line has a matching header and
    a timestamp that does not reparse, and it is skipped, because one of
    its tokens holds no [=]. *)
Lemma C5_counterexample :
  exists m,
    re_match log_pattern
      (clean_line "PVEFW-HOST-IN 31/Feb/2024:10:00:00 -0500 DROP: IN=eth0 SYN")
    = Some m
    /\ strptime (timestamp_of m) = Raise ValueError
    /\ process_line "pve_firewall_logs"
         "PVEFW-HOST-IN 31/Feb/2024:10:00:00 -0500 DROP: IN=eth0 SYN"
       = Ok (Skipped
               ("Warning: Could not parse key-value pairs in line: "
                ++ "PVEFW-HOST-IN 31/Feb/2024:10:00:00 -0500 DROP: IN=eth0 SYN")).
Proof.
  eexists. split; [vm_compute; reflexivity|].
  split; vm_compute; reflexivity.
Qed.

(** ** C6 *)

Lemma set_flags_keys (d : dict) : map fst (set_flags d) = map fst d.
Proof.
  unfold set_flags. generalize flags as fl. intros fl. revert d.
  induction fl as [|f fl IH]; intros d; simpl; [reflexivity|].
  rewrite IH. destruct (dict_mem f d) eqn:E; [|reflexivity].
  now rewrite dict_set_keys, E, app_nil_r.
Qed.

Lemma dict_mem_set k k' v (d : dict) :
  dict_mem k d = true -> dict_mem k (dict_set k' v d) = true.
Proof.
  intros H. apply dict_mem_In. rewrite dict_set_keys. apply in_or_app.
  left. now apply dict_mem_In.
Qed.

Lemma flag_loop_keeps (fl : list str) flag (d : dict) :
  dict_get flag d = Some (PStr "1") ->
  dict_get flag
    (fold_left
       (fun d f => if dict_mem f d then dict_set f (PStr "1") d else d) fl d)
  = Some (PStr "1").
Proof.
  revert d. induction fl as [|f fl IH]; intros d H; simpl; [assumption|].
  apply IH. destruct (dict_mem f d); [|assumption].
  rewrite dict_get_set. now destruct (str_eqb flag f).
Qed.

Lemma flag_loop_sets (fl : list str) flag (d : dict) :
  In flag fl -> dict_mem flag d = true ->
  dict_get flag
    (fold_left
       (fun d f => if dict_mem f d then dict_set f (PStr "1") d else d) fl d)
  = Some (PStr "1").
Proof.
  revert d. induction fl as [|f fl IH]; intros d Hin Hmem; [destruct Hin|].
  simpl. destruct (str_eqb flag f) eqn:E.
  - apply str_eqb_eq in E. subst f. rewrite Hmem.
    apply flag_loop_keeps. now rewrite dict_get_set, str_eqb_refl.
  - destruct Hin as [->|Hin]; [now rewrite str_eqb_refl in E|].
    apply IH; [assumption|].
    destruct (dict_mem f d); [now apply dict_mem_set|assumption].
Qed.

Lemma flag_not_in_header flag chain ts action :
  In flag flags -> dict_mem flag (header_fields chain ts action) = false.
Proof.
  unfold flags. simpl.
  intros H. repeat (destruct H as [<-|H]; [reflexivity|]). destruct H.
Qed.

Lemma flag_column_not_fixed flag :
  In flag flags ->
  ~ In (lower flag)
      [ "raw_log" : str; "pvefw_chain" : str; "log_timestamp" : str;
        "action" : str ].
Proof.
  unfold flags. simpl.
  intros H. repeat (destruct H as [<-|H]; [vm_compute; intuition discriminate|]).
  destruct H.
Qed.

Lemma column_of_field k v line (data : dict) :
  In (k, v) data ->
  In (lower k, escape_quotes (str_of v))
    (combine (columns_to_insert data) (values_to_insert line data)).
Proof.
  intros H. unfold columns_to_insert, values_to_insert. simpl. right.
  induction data as [|[k' v'] data IH]; [destruct H|].
  simpl. destruct H as [H|H]; [injection H as -> ->; now left|right; now apply IH].
Qed.

(** C6, as the program has it.  For a line whose header matches and whose
    tail parses into the pairs [kv], and for each of the five flags: if
    the flag is a key of [kv], the record holds ["1"] for it and the
    INSERT lists its column with the value [1]; if no key of [kv]
    lower-cases to the flag's column name, that column is not in the
    column list. *)
Theorem C6_flags_are_one_or_absent
    (line : str) (m : mstate) (kv : dict) (flag : str) :
  In flag flags ->
  re_match log_pattern (clean_line line) = Some m ->
  kv_pairs (split_ws (tail_of m)) = Ok kv ->
  exists data,
    parse_line line = Ok (Record data)
    /\ (dict_mem flag kv = true ->
        dict_get flag data = Some (PStr "1")
        /\ In (lower flag, "1" : str)
             (combine (columns_to_insert data) (values_to_insert line data)))
    /\ ((forall k, In k (map fst kv) -> lower k <> lower flag) ->
        ~ In (lower flag) (columns_to_insert data)).
Proof.
  intros Hflag Hm Hkv.
  destruct (parse_line_record _ _ _ Hm Hkv)
    as (c & t & a & rest & _ & _ & Hincl & Hmem & Hp).
  eexists. split; [exact Hp|]. split.
  - intros Hk.
    assert (Hget : dict_get flag (set_flags rest) = Some (PStr "1")).
    { apply flag_loop_sets; [assumption|].
      apply Hmem; [assumption|now apply flag_not_in_header]. }
    assert (Hget' : dict_get flag
                      (("pvefw_chain" : str, PStr c)
                       :: ("log_timestamp" : str, sql_timestamp t)
                       :: ("action" : str, PStr a) :: set_flags rest)
                    = Some (PStr "1")).
    { pose proof (flag_not_in_header flag c t a Hflag) as Hh.
      unfold header_fields in Hh. simpl in Hh.
      apply orb_false_iff in Hh as [H1 Hh]. apply orb_false_iff in Hh as [H2 Hh].
      apply orb_false_iff in Hh as [H3 _].
      simpl. now rewrite H1, H2, H3. }
    split; [exact Hget'|].
    apply dict_get_In in Hget'.
    apply (column_of_field _ _ line) in Hget'. exact Hget'.
  - intros Hno Hin. unfold columns_to_insert in Hin.
    change (In (lower flag)
              ([ "raw_log" : str; lower "pvefw_chain"; lower "log_timestamp";
                 lower "action" ]
               ++ map (fun e : str * pyval => lower (fst e)) (set_flags rest)))
      in Hin.
    apply in_app_or in Hin as [Hin|Hin].
    + now apply (flag_column_not_fixed flag Hflag).
    + rewrite <- (map_map fst lower), set_flags_keys in Hin.
      apply in_map_iff in Hin as (k & Hk & Hin).
      apply (Hno k); [now apply Hincl|assumption].
Qed.

Lemma C6_witness :
  exists data,
    parse_line "PVEFW-HOST-IN 25/Dec/2024:10:00:00 -0500 DROP: IN=eth0 SYN=x"
    = Ok (Record data)
    /\ dict_get "SYN" data = Some (PStr "1")
    /\ ~ In (lower "ACK") (columns_to_insert data).
Proof.
  destruct (C6_flags_are_one_or_absent
              "PVEFW-HOST-IN 25/Dec/2024:10:00:00 -0500 DROP: IN=eth0 SYN=x"
              ([], [ ("kv_pairs" : str, "IN=eth0 SYN=x" : str);
                     ("action" : str, "DROP" : str);
                     ("log_timestamp" : str,
                      "25/Dec/2024:10:00:00 -0500" : str);
                     ("pvefw_chain" : str, "PVEFW-HOST-IN" : str) ])
              [ ("IN" : str, PStr "eth0"); ("SYN" : str, PStr "x") ]
              "SYN")
    as (data & Hp & Hsyn & _);
    [vm_compute; auto | vm_compute; reflexivity ..|].
  destruct (C6_flags_are_one_or_absent
              "PVEFW-HOST-IN 25/Dec/2024:10:00:00 -0500 DROP: IN=eth0 SYN=x"
              ([], [ ("kv_pairs" : str, "IN=eth0 SYN=x" : str);
                     ("action" : str, "DROP" : str);
                     ("log_timestamp" : str,
                      "25/Dec/2024:10:00:00 -0500" : str);
                     ("pvefw_chain" : str, "PVEFW-HOST-IN" : str) ])
              [ ("IN" : str, PStr "eth0"); ("SYN" : str, PStr "x") ]
              "ACK")
    as (data' & Hp' & _ & Hack);
    [vm_compute; auto 10 | vm_compute; reflexivity ..|].
  exists data. split; [exact Hp|]. split; [now apply Hsyn|].
  assert (data' = data) as <- by congruence.
  apply Hack. simpl. intros k [<-|[<-|[]]]; vm_compute; discriminate.
Defined.

(** The claim as it was stated fails: in this line no pair is keyed
    [SYN], yet the column list of its INSERT holds [syn], with the value
    the line gave. *)
Lemma C6_counterexample :
  exists kv data,
    kv_pairs (split_ws "syn=0") = Ok kv
    /\ dict_mem "SYN" kv = false
    /\ parse_line "PVEFW-HOST-IN 25/Dec/2024:10:00:00 -0500 DROP: syn=0"
       = Ok (Record data)
    /\ In (lower "SYN") (columns_to_insert data)
    /\ In (lower "SYN", "0" : str)
         (combine (columns_to_insert data)
            (values_to_insert
               "PVEFW-HOST-IN 25/Dec/2024:10:00:00 -0500 DROP: syn=0" data)).
Proof.
  eexists _, _. split; [vm_compute; reflexivity|].
  split; [reflexivity|]. split; [vm_compute; reflexivity|].
  split; vm_compute; auto 10.
Qed.

(** ** C8 *)

(** C8, as the program has it.  For a line that parses into a record, the
    INSERT statement lists [raw_log] first, then the record's fields in
    the record's order under their lower-cased names; the value of
    [raw_log] is the line stripped of surrounding whitespace, and every
    value, that one included, has its single quotes doubled. *)
Theorem C8_insert_lists_raw_log_then_fields
    (table_name line : str) (data : dict) :
  parse_line line = Ok (Record data) ->
  columns_to_insert data
  = ("raw_log" : str) :: map lower (map fst data)
  /\ values_to_insert line data
     = map escape_quotes (strip line :: map str_of (map snd data))
  /\ process_line table_name line
     = Ok (Inserted
             ("INSERT INTO " ++ table_name ++ " (raw_log"
              ++ List.concat (map (fun e => ", " ++ lower (fst e)) data)
              ++ ") VALUES ('" ++ escape_quotes (strip line)
              ++ List.concat
                   (map (fun e => "', '" ++ escape_quotes (str_of (snd e)))
                      data)
              ++ "');" ++ nl)).
Proof.
  intros Hp. split; [|split].
  - unfold columns_to_insert. now rewrite map_map.
  - unfold values_to_insert. simpl. now rewrite !map_map.
  - unfold process_line. rewrite Hp. simpl bind. cbv iota.
    now rewrite insert_sql_text.
Qed.

Lemma C8_witness :
  process_line "t" "PVEFW-HOST-IN 25/Dec/2024:10:00:00 -0500 DROP: SRC=o'neil"
  = Ok (Inserted
          ("INSERT INTO t (raw_log, pvefw_chain, log_timestamp, action, src) "
           ++ "VALUES ('PVEFW-HOST-IN 25/Dec/2024:10:00:00 -0500 DROP: "
           ++ "SRC=o''neil', 'PVEFW-HOST-IN', '2024-12-25 10:00:00', 'DROP', "
           ++ "'o''neil');" ++ nl)).
Proof.
  destruct (C8_insert_lists_raw_log_then_fields "t"
              "PVEFW-HOST-IN 25/Dec/2024:10:00:00 -0500 DROP: SRC=o'neil"
              [ ("pvefw_chain" : str, PStr "PVEFW-HOST-IN");
                ("log_timestamp" : str, PStr "2024-12-25 10:00:00");
                ("action" : str, PStr "DROP");
                ("SRC" : str, PStr "o'neil") ])
    as (_ & _ & H); [vm_compute; reflexivity|].
  rewrite H. vm_compute. reflexivity.
Defined.

(** The claim as it was stated fails: the value of [raw_log] is not the
    line as read with its quotes doubled, for the line is stripped
    first.  Here the line starts with two spaces and ends with a line
    feed, and [raw_log] has neither. *)
Lemma C8_counterexample :
  let line : str :=
    "  PVEFW-HOST-IN 25/Dec/2024:10:00:00 -0500 DROP: IN=eth0" ++ nl in
  exists data,
    parse_line line = Ok (Record data)
    /\ hd [] (values_to_insert line data)
       = "PVEFW-HOST-IN 25/Dec/2024:10:00:00 -0500 DROP: IN=eth0"
    /\ hd [] (values_to_insert line data) <> escape_quotes line.
Proof.
  eexists. split; [vm_compute; reflexivity|].
  split; [vm_compute; reflexivity|]. vm_compute. discriminate.
Qed.

(** ** C10 *)

Lemma lstrip_spaces (lead s : str) :
  forallb isspace lead = true -> lstrip (lead ++ s) = lstrip s.
Proof.
  induction lead as [|c lead IH]; simpl; [reflexivity|].
  intros H. apply andb_true_iff in H as [Hc H]. rewrite Hc. now apply IH.
Qed.

Lemma lstrip_nonspace c (s : str) :
  isspace c = false -> lstrip (c :: s) = c :: s.
Proof. intros H. simpl. now rewrite H. Qed.

Lemma rstrip_trims (body trail : str) d :
  forallb isspace trail = true -> isspace d = false ->
  rstrip ((body ++ [d]) ++ trail) = body ++ [d].
Proof.
  intros Ht Hd. unfold rstrip.
  rewrite rev_app_distr, lstrip_spaces by (now rewrite forallb_reverse).
  rewrite rev_app_distr. simpl. rewrite Hd. simpl.
  now rewrite rev_involutive.
Qed.

Lemma strip_trims (lead body trail : str) c d :
  forallb isspace lead = true -> forallb isspace trail = true ->
  isspace c = false -> isspace d = false ->
  strip (lead ++ (c :: body ++ [d]) ++ trail) = c :: body ++ [d].
Proof.
  intros Hl Ht Hc Hd. unfold strip.
  rewrite lstrip_spaces by assumption. simpl lstrip. rewrite Hc.
  apply (rstrip_trims (c :: body) trail d Ht Hd).
Qed.

Lemma count_space_after_marker (s : str) :
  count_space (last_item (split1 marker s)) <= count_space s.
Proof.
  unfold split1, last_item.
  destruct (find_sep marker s) as [[before after]|] eqn:E; simpl; [|lia].
  apply find_sep_spec in E. subst s. rewrite !count_space_app. lia.
Qed.

Lemma header_match_needs_four_spaces (s : str) (m : mstate) :
  re_match log_pattern s = Some m -> 4 <= count_space s.
Proof.
  intros H. apply log_pattern_inv in H
    as (chain & w1 & ts & w2 & action & w3 & kv & -> & _ & H1 & H2 & H3 & Hts & _).
  rewrite count_space_app, count_space_cons, H1, count_space_app, Hts,
    count_space_cons, H2, !count_space_app, count_space_cons, H3.
  lia.
Qed.

(** C10.  A line made of a header and nothing after the action's colon
    but whitespace (leading whitespace allowed too) is skipped as a
    header mismatch: stripping removes what follows the colon, and the
    pattern wants a whitespace character there. *)
Theorem C10_header_without_tail_is_skipped
    (table_name lead chain ts action trail : str) (c w1 w2 : ascii)
    (groups : captures) :
  forallb isspace lead = true ->
  forallb isspace trail = true ->
  forallb notspace (c :: chain) = true ->
  isspace w1 = true ->
  re_match timestamp_pattern ts = Some ([], groups) ->
  isspace w2 = true ->
  action <> [] ->
  forallb isword action = true ->
  let header := (c :: chain) ++ w1 :: ts ++ w2 :: action ++ ":" in
  parse_line (lead ++ header ++ trail) = Ok HeaderMismatch
  /\ process_line table_name (lead ++ header ++ trail)
     = Ok (Skipped ("Warning: Skipping malformed line: " ++ header)).
Proof.
  intros Hlead Htrail Hchain Hw1 Hts Hw2 Hact Hword header.
  assert (Hc : isspace c = false).
  { simpl in Hchain. apply andb_true_iff in Hchain as [Hc _].
    now apply notspace_not_space. }
  assert (Hstrip : strip (lead ++ header ++ trail) = header).
  { unfold header.
    replace ((c :: chain) ++ w1 :: ts ++ w2 :: action ++ ":")
      with (c :: (chain ++ w1 :: ts ++ w2 :: action) ++ [":"%char])
      by (do 4 (simpl; rewrite <- ?app_assoc); reflexivity).
    now apply strip_trims. }
  assert (Hcount : count_space header = 3).
  { unfold header. apply re_match_sound in Hts as (w & E & Hts).
    simpl in E. rewrite app_nil_r in E. subst w.
    apply timestamp_pattern_space in Hts.
    rewrite count_space_app, (count_space_cons w1), Hw1, count_space_app, Hts,
      (count_space_cons w2), Hw2, count_space_app.
    rewrite (count_space_none notspace (c :: chain))
      by (apply notspace_not_space || assumption).
    rewrite (count_space_none isword action)
      by (apply isword_not_space || assumption).
    reflexivity. }
  assert (Hm : re_match log_pattern (clean_line (lead ++ header ++ trail)) = None).
  { destruct (re_match log_pattern _) as [m|] eqn:E; [|reflexivity].
    apply header_match_needs_four_spaces in E.
    unfold clean_line in E. rewrite Hstrip, count_space_app in E.
    pose proof (count_space_after_marker header) as Hle.
    change (count_space marker) with 0 in E. lia. }
  split.
  - unfold parse_line. now rewrite Hm.
  - unfold process_line.
    replace (parse_line (lead ++ header ++ trail)) with (Ok HeaderMismatch)
      by (unfold parse_line; now rewrite Hm).
    cbn [bind]. now rewrite Hstrip.
Qed.

Lemma C10_witness :
  parse_line ("  PVEFW-HOST-IN 25/Dec/2024:10:00:00 -0500 DROP:   " ++ nl)
  = Ok HeaderMismatch.
Proof.
  apply (C10_header_without_tail_is_skipped "t" "  " "VEFW-HOST-IN"
           "25/Dec/2024:10:00:00 -0500" "DROP" ("   " ++ nl) "P" " " " " []);
    try (vm_compute; reflexivity).
  discriminate.
Defined.

(** * Further properties of the converter *)

(** ** Every line has one of three outcomes, and none aborts the run *)

Lemma kv_pairs_all_tokens tokens :
  Forall (fun tok => In "="%char tok) tokens -> exists kv, kv_pairs tokens = Ok kv.
Proof.
  unfold kv_pairs. generalize (@nil (str * pyval)) as acc.
  induction tokens as [|t tokens IH]; intros acc H; simpl.
  - now exists acc.
  - inversion H as [|? ? Ht Htok]; subst.
    destruct (split1_char "=" t) as [[Hn _]|(k & v & -> & ->)]; [contradiction|].
    now apply IH.
Qed.

Lemma token_has_eq_dec (tokens : list str) :
  Forall (fun tok => In "="%char tok) tokens
  \/ exists tok, In tok tokens /\ ~ In "="%char tok.
Proof.
  induction tokens as [|t tokens [IH|(tok & Hin & Hno)]].
  - left. constructor.
  - destruct (split1_char "=" t) as [[Hn _]|(k & v & -> & _)].
    + right. exists t. split; [now left|assumption].
    + left. constructor; [|assumption]. apply in_or_app. right. now left.
  - right. exists tok. split; [now right|assumption].
Qed.

Lemma parse_line_cases (line : str) :
  (re_match log_pattern (clean_line line) = None
   /\ parse_line line = Ok HeaderMismatch)
  \/ (exists m tok,
        re_match log_pattern (clean_line line) = Some m
        /\ In tok (split_ws (tail_of m)) /\ ~ In "="%char tok
        /\ parse_line line = Ok KeyValueMismatch)
  \/ (exists m data,
        re_match log_pattern (clean_line line) = Some m
        /\ Forall (fun tok => In "="%char tok) (split_ws (tail_of m))
        /\ parse_line line = Ok (Record data)).
Proof.
  destruct (re_match log_pattern (clean_line line)) as [m|] eqn:Hm.
  - right. destruct (token_has_eq_dec (split_ws (tail_of m)))
      as [Hall|(tok & Hin & Hno)].
    + right. destruct (kv_pairs_all_tokens _ Hall) as (kv & Hkv).
      destruct (parse_line_record _ _ _ Hm Hkv)
        as (c & t & a & rest & _ & _ & _ & _ & Hp).
      eexists m, _. repeat split; [assumption|exact Hp].
    + left. exists m, tok. repeat split; try assumption.
      rewrite (parse_line_matched _ _ Hm).
      rewrite (kv_pairs_token_without_eq (split_ws (tail_of m)));
        [reflexivity|now exists tok].
  - left. split; [reflexivity|]. unfold parse_line. now rewrite Hm.
Qed.

(** X1.  What the parsing half of the loop body does with a line is
    decided by two tests and nothing else: no header match gives the
    header warning; a match with a token that holds no [=] gives the
    key-value warning; a match with an [=] in every token gives a
    record.  In particular the body raises nothing, whatever the line. *)
Theorem parse_line_outcomes (line : str) :
  (re_match log_pattern (clean_line line) = None
   /\ parse_line line = Ok HeaderMismatch)
  \/ (exists m tok,
        re_match log_pattern (clean_line line) = Some m
        /\ In tok (split_ws (tail_of m)) /\ ~ In "="%char tok
        /\ parse_line line = Ok KeyValueMismatch)
  \/ (exists m data,
        re_match log_pattern (clean_line line) = Some m
        /\ Forall (fun tok => In "="%char tok) (split_ws (tail_of m))
        /\ parse_line line = Ok (Record data)).
Proof. exact (parse_line_cases line). Qed.

Lemma process_line_total (table_name line : str) :
  exists o, process_line table_name line = Ok o.
Proof.
  unfold process_line.
  destruct (parse_line_cases line)
    as [[_ ->]|[(m & tok & _ & _ & _ & ->)|(m & data & _ & _ & ->)]];
    simpl; eexists; reflexivity.
Qed.

Lemma for_lines_accounts (table_name : str) (lines : list str) :
  raised (for_lines table_name lines) = None
  /\ length (written (for_lines table_name lines))
     + length (console (for_lines table_name lines))
     = length lines.
Proof.
  induction lines as [|line lines [IH1 IH2]]; [now split|].
  simpl. destruct (process_line_total table_name line) as ([w|sql] & ->);
    simpl; split; try assumption; lia.
Qed.

(** X2.  A run over any list of lines ends without an exception, and
    every line leaves exactly one trace: one INSERT written or one
    warning printed. *)
Theorem run_accounts_for_every_line (table_name : str) (lines : list str) :
  raised (convert table_name lines) = None
  /\ length (written (convert table_name lines))
     = length (create_table table_name)
       + (length lines - length (console (convert table_name lines)))
  /\ length (console (convert table_name lines)) <= length lines.
Proof.
  unfold convert. cbn [raised written console]. rewrite length_app.
  destruct (for_lines_accounts table_name lines) as [H1 H2].
  repeat split; [assumption|lia|lia].
Qed.

(** ** Normalisation *)

Lemma strip_prefix_app (p r : str) : strip_prefix p (p ++ r) = Some r.
Proof.
  induction p as [|c p IH]; simpl; [reflexivity|].
  now rewrite Ascii.eqb_refl.
Qed.

Lemma find_sep_first (sep s a b : str) :
  find_sep sep s = Some (a, b) ->
  forall a' b', s = a' ++ sep ++ b' -> length a <= length a'.
Proof.
  revert a b. induction s as [|c s IH]; intros a b H a' b' E.
  - simpl in H. destruct (strip_prefix sep []); [|discriminate].
    injection H as <- <-. simpl. lia.
  - simpl in H. destruct (strip_prefix sep (c :: s)) eqn:P.
    + injection H as <- <-. simpl. lia.
    + destruct (find_sep sep s) as [[a0 b0]|] eqn:F; [|discriminate].
      injection H as <- <-.
      destruct a' as [|c' a'].
      * simpl in E. rewrite E, strip_prefix_app in P. discriminate.
      * simpl in E. injection E as _ E. simpl.
        specialize (IH a0 b0 eq_refl a' b' E). lia.
Qed.

Lemma find_sep_complete (sep s a' b' : str) :
  s = a' ++ sep ++ b' -> exists a b, find_sep sep s = Some (a, b).
Proof.
  revert s. induction a' as [|c a' IH]; intros s ->.
  - simpl. destruct (sep ++ b') eqn:E; simpl.
    + destruct sep; [|discriminate]. simpl. now eexists _, _.
    + rewrite <- E, strip_prefix_app. now eexists _, _.
  - simpl. destruct (strip_prefix sep (c :: a' ++ sep ++ b')); [now eexists _, _|].
    destruct (IH _ eq_refl) as (a & b & ->). now eexists _, _.
Qed.

(** X3.  When the marker occurs in the stripped line, what the pattern is
    matched against is the marker followed by everything after its first
    occurrence: the text before that occurrence is dropped, and no later
    occurrence is the one used. *)
Theorem clean_line_keeps_text_after_first_marker (line a' b' : str) :
  strip line = a' ++ marker ++ b' ->
  exists a b,
    strip line = a ++ marker ++ b
    /\ length a <= length a'
    /\ clean_line line = marker ++ b.
Proof.
  intros E. destruct (find_sep_complete _ _ _ _ E) as (a & b & F).
  exists a, b. split; [now apply find_sep_spec|].
  split; [now apply (find_sep_first _ _ _ _ F a' b')|].
  unfold clean_line, split1. now rewrite F.
Qed.

Lemma clean_line_keeps_text_after_first_marker_witness :
  let line : str := "Dec 25 host kernel: PVEFW-HOST-IN x PVEFW-HOST-IN y" in
  let a' : str := "Dec 25 host kernel: PVEFW-HOST-IN x " in
  strip line = a' ++ marker ++ " y"
  /\ exists a b,
       strip line = a ++ marker ++ b
       /\ length a <= length a'
       /\ clean_line line = marker ++ b.
Proof.
  split; [reflexivity|].
  apply (clean_line_keeps_text_after_first_marker _ _ " y"). reflexivity.
Defined.

Lemma lstrip_length (s : str) : length (lstrip s) <= length s.
Proof.
  induction s as [|c s IH]; simpl; [lia|].
  destruct (isspace c); simpl; lia.
Qed.

Lemma lstrip_fixed_head c (s : str) :
  lstrip (c :: s) = c :: s -> isspace c = false.
Proof.
  simpl. destruct (isspace c); [|reflexivity].
  intros H. pose proof (lstrip_length s) as L. rewrite H in L. simpl in L. lia.
Qed.

Lemma lstrip_idempotent (s : str) : lstrip (lstrip s) = lstrip s.
Proof.
  induction s as [|c s IH]; simpl; [reflexivity|].
  destruct (isspace c) eqn:E; [assumption|]. simpl. now rewrite E.
Qed.

Lemma lstrip_fixed_app (a b : str) :
  lstrip a = a -> a <> [] -> lstrip (a ++ b) = a ++ b.
Proof.
  destruct a as [|c a]; [congruence|]. intros H _.
  apply lstrip_fixed_head in H. simpl. now rewrite H.
Qed.

Lemma lstrip_fixed_prefix (a b : str) :
  lstrip (a ++ b) = a ++ b -> a <> [] -> lstrip a = a.
Proof.
  destruct a as [|c a]; [congruence|]. intros H _.
  change ((c :: a) ++ b) with (c :: a ++ b) in H.
  apply lstrip_fixed_head in H. simpl. now rewrite H.
Qed.

Lemma rstrip_fixed (s : str) : lstrip (rev s) = rev s -> rstrip s = s.
Proof. intros H. unfold rstrip. now rewrite H, rev_involutive. Qed.

Lemma strip_is_trimmed (s : str) : lstrip (rev (strip s)) = rev (strip s).
Proof.
  unfold strip, rstrip. now rewrite rev_involutive, lstrip_idempotent.
Qed.

Lemma strip_of_clean_line (line : str) : strip (clean_line line) = clean_line line.
Proof.
  unfold clean_line.
  assert (Hx : exists before,
             strip line = before ++ last_item (split1 marker (strip line))).
  { unfold split1, last_item.
    destruct (find_sep marker (strip line)) as [[a b]|] eqn:F; simpl.
    - apply find_sep_spec in F. exists (a ++ marker). now rewrite <- app_assoc.
    - now exists []. }
  destruct Hx as (before & Hx).
  set (x := last_item (split1 marker (strip line))) in *.
  unfold strip. change (lstrip (marker ++ x)) with (marker ++ x).
  apply rstrip_fixed. rewrite rev_app_distr.
  destruct x as [|c y]; [reflexivity|].
  apply lstrip_fixed_app.
  - pose proof (strip_is_trimmed line) as T.
    rewrite Hx, rev_app_distr in T.
    apply lstrip_fixed_prefix in T; [assumption|].
    simpl. now destruct (rev y).
  - simpl. now destruct (rev y).
Qed.

Lemma find_sep_at_start (sep r : str) :
  find_sep sep (sep ++ r) = Some ([], r).
Proof.
  pose proof (strip_prefix_app sep r) as P.
  destruct (sep ++ r); simpl; now rewrite P.
Qed.

(** X4.  Normalising is a projection: a normalised line normalises to
    itself, so a line and its normalised form parse to the same record or
    the same skip.  Whatever came before the marker has no part in the
    parsed fields. *)
Theorem clean_line_idempotent (line : str) :
  clean_line (clean_line line) = clean_line line
  /\ parse_line (clean_line line) = parse_line line.
Proof.
  assert (H : clean_line (clean_line line) = clean_line line).
  { unfold clean_line at 1. rewrite strip_of_clean_line.
    unfold clean_line at 1. unfold split1.
    now rewrite find_sep_at_start. }
  split; [exact H|]. unfold parse_line. now rewrite H.
Qed.

(** ** What a header match holds *)

Lemma timestamp_pattern_length ts c c' :
  matches timestamp_pattern ts c c' -> length ts = 26.
Proof.
  intros H. cbv [timestamp_pattern Seq Rep Lit fold_right repeat] in H.
  inv_matches. reflexivity.
Qed.

Lemma nonspace_prefix (p x chain rest : str) w :
  forallb notspace p = true -> forallb notspace chain = true ->
  isspace w = true ->
  p ++ x = chain ++ w :: rest -> exists r, chain = p ++ r.
Proof.
  revert chain. induction p as [|c p IH]; intros chain Hp Hc Hw E.
  - now exists chain.
  - simpl in Hp. apply andb_true_iff in Hp as [Hc0 Hp].
    destruct chain as [|c' chain].
    + simpl in E. injection E as -> _.
      apply notspace_not_space in Hc0. congruence.
    + simpl in E, Hc. injection E as -> E.
      apply andb_true_iff in Hc as [_ Hc].
      destruct (IH chain Hp Hc Hw E) as (r & ->). now exists r.
Qed.

Lemma log_pattern_inv_shape s m :
  re_match log_pattern s = Some m ->
  exists chain w1 ts action rest,
    s = chain ++ w1 :: rest
    /\ snd m = [ ("kv_pairs" : str, tail_of m); ("action" : str, action);
                 ("log_timestamp" : str, ts); ("pvefw_chain" : str, chain) ]
    /\ isspace w1 = true
    /\ forallb notspace chain = true
    /\ length ts = 26
    /\ action <> [] /\ forallb isword action = true.
Proof.
  intros H. apply re_match_sound in H as (w & Hs & H).
  cbv [log_pattern Seq Plus Lit fold_right] in H.
  inv_matches.
  match goal with
  | Hts : matches timestamp_pattern _ _ _ |- _ =>
      pose proof (matches_no_groups _ _ _ _ Hts eq_refl) as ->;
      apply timestamp_pattern_length in Hts
  end.
  match goal with
  | Hc : _ = snd m |- _ => unfold tail_of; rewrite <- Hc
  end.
  match goal with
  | |- context [(([?x] ++ ?c) ++ [?a] ++ ?ts ++ [?b] ++ ([?y] ++ ?act)
                 ++ ?r) ++ ?r'] =>
      exists (x :: c), a, ts, (y :: act), ((ts ++ [b] ++ ([y] ++ act) ++ r) ++ r')
  end.
  split.
  { do 4 (simpl; rewrite <- ?app_assoc). reflexivity. }
  split; [reflexivity|].
  simpl. rewrite !andb_true_iff. repeat split; auto; discriminate.
Qed.

(** X5.  Whenever the header matches, the chain group starts with the
    marker and holds no whitespace, the timestamp group is 26 characters
    long, and the action group is a non-empty run of word characters. *)
Theorem header_groups_shape (line : str) (m : mstate) :
  re_match log_pattern (clean_line line) = Some m ->
  (exists r, chain_of m = marker ++ r)
  /\ forallb notspace (chain_of m) = true
  /\ length (timestamp_of m) = 26
  /\ action_of m <> []
  /\ forallb isword (action_of m) = true.
Proof.
  intros H.
  apply log_pattern_inv_shape in H
    as (chain & w1 & ts & action & rest & E & Hc & Hw1 & Hchain & Hlen
        & Hne & Hact).
  unfold chain_of, timestamp_of, action_of. rewrite Hc.
  cbn [group_text group find str_of snd fst].
  change (group_text "pvefw_chain" _) with chain.
  repeat split; try assumption.
  unfold clean_line in E.
  eapply (nonspace_prefix marker); [reflexivity|exact Hchain|exact Hw1|exact E].
Qed.

Lemma header_groups_shape_witness :
  exists r : str,
    ("PVEFW-HOST-IN" : str) = marker ++ r.
Proof.
  destruct (header_groups_shape
              "x PVEFW-HOST-IN 25/Dec/2024:10:00:00 -0500 DROP: IN=eth0"
              ([], [ ("kv_pairs" : str, "IN=eth0" : str);
                     ("action" : str, "DROP" : str);
                     ("log_timestamp" : str,
                      "25/Dec/2024:10:00:00 -0500" : str);
                     ("pvefw_chain" : str, "PVEFW-HOST-IN" : str) ]))
    as (H & _); [vm_compute; reflexivity|exact H].
Defined.

(** ** The fields of a record: their names, order and values *)

Lemma NoDup_snoc (l : list str) x :
  List.NoDup l -> ~ In x l -> List.NoDup (l ++ [x]).
Proof.
  induction 1 as [|y l Hy Hl IH]; intros Hx; simpl.
  - constructor; [intros []|constructor].
  - constructor.
    + intros Hin. apply in_app_or in Hin as [Hin|[<-|[]]]; [contradiction|].
      apply Hx. now left.
    + apply IH. intros Hin. apply Hx. now right.
Qed.

Lemma dict_set_NoDup k v (d : dict) :
  List.NoDup (map fst d) -> List.NoDup (map fst (dict_set k v d)).
Proof.
  intros H. rewrite dict_set_keys. destruct (dict_mem k d) eqn:E.
  - now rewrite app_nil_r.
  - apply NoDup_snoc; [assumption|].
    intros Hx. apply dict_mem_In in Hx. congruence.
Qed.

Lemma dict_of_seqs_NoDup seqs acc kv :
  List.NoDup (map fst acc) -> dict_of_seqs seqs acc = Ok kv -> List.NoDup (map fst kv).
Proof.
  revert acc. induction seqs as [|x seqs IH]; intros acc Hacc; simpl.
  - intros H. now injection H as <-.
  - destruct x as [|k [|v [|y t]]]; try discriminate.
    apply IH. now apply dict_set_NoDup.
Qed.

Lemma dict_mem_after_set k k' v (d : dict) :
  dict_mem k (dict_set k' v d) = dict_mem k d || str_eqb k k'.
Proof.
  induction d as [|[k0 v0] d IH]; simpl.
  - now rewrite orb_false_r.
  - destruct (str_eqb k' k0) eqn:E; simpl.
    + apply str_eqb_eq in E. subst k0.
      destruct (str_eqb k k'); simpl; [reflexivity|now rewrite orb_false_r].
    + rewrite IH. now rewrite orb_assoc.
Qed.

Lemma dict_update_order (other d : dict) :
  List.NoDup (map fst other) ->
  map fst (dict_update d other)
  = map fst d ++ List.filter (fun k => negb (dict_mem k d)) (map fst other).
Proof.
  unfold dict_update. revert d.
  induction other as [|[k v] other IH]; intros d Hnd; simpl.
  - now rewrite app_nil_r.
  - inversion Hnd as [|? ? Hk Hnd']; subst.
    rewrite IH by assumption. rewrite dict_set_keys, <- app_assoc. f_equal.
    assert (Hf : List.filter (fun k0 => negb (dict_mem k0 (dict_set k v d)))
                   (map fst other)
                 = List.filter (fun k0 => negb (dict_mem k0 d)) (map fst other)).
    { apply List.filter_ext_in. intros k0 Hk0.
      rewrite dict_mem_after_set.
      destruct (str_eqb k0 k) eqn:E; [|now rewrite orb_false_r].
      apply str_eqb_eq in E. subst k0. contradiction. }
    rewrite Hf. now destruct (dict_mem k d).
Qed.

Lemma dict_update_NoDup (other d : dict) :
  List.NoDup (map fst d) -> List.NoDup (map fst (dict_update d other)).
Proof.
  unfold dict_update. revert d.
  induction other as [|[k v] other IH]; intros d H; simpl; [assumption|].
  apply IH. now apply dict_set_NoDup.
Qed.

Lemma dict_get_update k (other d : dict) :
  List.NoDup (map fst other) ->
  dict_get k (dict_update d other)
  = match dict_get k other with
    | Some v => Some v
    | None => dict_get k d
    end.
Proof.
  unfold dict_update. revert d.
  induction other as [|[k0 v0] other IH]; intros d Hnd; simpl; [reflexivity|].
  inversion Hnd as [|? ? Hk Hnd']; subst.
  rewrite IH by assumption. rewrite dict_get_set.
  destruct (str_eqb k k0) eqn:E; [|reflexivity].
  apply str_eqb_eq in E. subst k0.
  destruct (dict_get k other) as [v|] eqn:G; [|reflexivity].
  apply dict_get_In in G. exfalso. apply Hk.
  change k with (fst (k, v)). now apply in_map.
Qed.

Lemma flag_loop_other (fl : list str) k (d : dict) :
  ~ In k fl ->
  dict_get k
    (fold_left
       (fun d f => if dict_mem f d then dict_set f (PStr "1") d else d) fl d)
  = dict_get k d.
Proof.
  revert d. induction fl as [|f fl IH]; intros d H; simpl; [reflexivity|].
  rewrite IH by (intros Hin; apply H; now right).
  destruct (dict_mem f d); [|reflexivity].
  rewrite dict_get_set. destruct (str_eqb k f) eqn:E; [|reflexivity].
  apply str_eqb_eq in E. subst f. exfalso. apply H. now left.
Qed.

(** X6.  The record of a converted line names its fields without
    repetition, in this order: [pvefw_chain], [log_timestamp], [action],
    then the keys of the tail's pairs that are none of these three, in
    the order the pairs hold them. *)
Theorem record_fields_order (line : str) (m : mstate) (kv : dict) :
  re_match log_pattern (clean_line line) = Some m ->
  kv_pairs (split_ws (tail_of m)) = Ok kv ->
  exists data,
    parse_line line = Ok (Record data)
    /\ map fst data
       = fixed_columns
         ++ List.filter (fun k => negb (str_in k fixed_columns)) (map fst kv)
    /\ List.NoDup (map fst data).
Proof.
  intros Hm Hkv.
  destruct (parse_line_record _ _ _ Hm Hkv)
    as (c & t & a & rest & E & _ & _ & _ & Hp).
  assert (Hnd : List.NoDup (map fst kv)).
  { unfold kv_pairs in Hkv. eapply dict_of_seqs_NoDup; [|exact Hkv]. constructor. }
  assert (Hkeys : map fst
                    (("pvefw_chain" : str, PStr c)
                     :: ("log_timestamp" : str, sql_timestamp t)
                     :: ("action" : str, PStr a) :: set_flags rest)
                  = map fst
                      (dict_update
                         (header_fields (chain_of m) (timestamp_of m)
                            (action_of m)) kv)).
  { rewrite E. simpl. now rewrite set_flags_keys. }
  eexists. split; [exact Hp|]. rewrite Hkeys. split.
  - rewrite dict_update_order by assumption. reflexivity.
  - apply dict_update_NoDup. unfold header_fields. simpl.
    repeat constructor; simpl; intuition discriminate.
Qed.

Lemma record_fields_order_witness :
  exists data,
    parse_line
      "PVEFW-HOST-IN 25/Dec/2024:10:00:00 -0500 DROP: B=1 action=x A=2 B=3"
    = Ok (Record data)
    /\ map fst data
       = [ "pvefw_chain" : str; "log_timestamp" : str; "action" : str;
           "B" : str; "A" : str ].
Proof.
  destruct (record_fields_order
              "PVEFW-HOST-IN 25/Dec/2024:10:00:00 -0500 DROP: B=1 action=x A=2 B=3"
              ([], [ ("kv_pairs" : str, "B=1 action=x A=2 B=3" : str);
                     ("action" : str, "DROP" : str);
                     ("log_timestamp" : str,
                      "25/Dec/2024:10:00:00 -0500" : str);
                     ("pvefw_chain" : str, "PVEFW-HOST-IN" : str) ])
              [ ("B" : str, PStr "3"); ("action" : str, PStr "x");
                ("A" : str, PStr "2") ])
    as (data & Hp & Hk & _); [vm_compute; reflexivity ..|].
  exists data. split; [exact Hp|]. rewrite Hk. vm_compute. reflexivity.
Defined.

(** X7.  A pair of the tail overrides the header: for every field other
    than the timestamp and the five flags, the record holds the value of
    the tail's pair of that name when there is one, and the header's
    value otherwise.  So a pair keyed [action] or [pvefw_chain] replaces
    what the header gave. *)
Theorem tail_pairs_override_header (line : str) (m : mstate) (kv : dict) (k : str) :
  re_match log_pattern (clean_line line) = Some m ->
  kv_pairs (split_ws (tail_of m)) = Ok kv ->
  k <> ("log_timestamp" : str) ->
  ~ In k flags ->
  exists data,
    parse_line line = Ok (Record data)
    /\ dict_get k data
       = match dict_get k kv with
         | Some v => Some v
         | None =>
             dict_get k
               (header_fields (chain_of m) (timestamp_of m) (action_of m))
         end.
Proof.
  intros Hm Hkv Hk Hflag.
  destruct (parse_line_record _ _ _ Hm Hkv)
    as (c & t & a & rest & E & _ & _ & _ & Hp).
  assert (Hnd : List.NoDup (map fst kv)).
  { unfold kv_pairs in Hkv. eapply dict_of_seqs_NoDup; [|exact Hkv]. constructor. }
  eexists. split; [exact Hp|].
  rewrite <- dict_get_update by assumption. rewrite E.
  apply str_eqb_neq in Hk. cbn [dict_get]. rewrite Hk.
  destruct (str_eqb k "pvefw_chain"); [reflexivity|].
  destruct (str_eqb k "action"); [reflexivity|].
  now apply flag_loop_other.
Qed.

Lemma tail_pairs_override_header_witness :
  exists data,
    parse_line "PVEFW-HOST-IN 25/Dec/2024:10:00:00 -0500 DROP: action=ACCEPT"
    = Ok (Record data)
    /\ dict_get "action" data = Some (PStr "ACCEPT").
Proof.
  destruct (tail_pairs_override_header
              "PVEFW-HOST-IN 25/Dec/2024:10:00:00 -0500 DROP: action=ACCEPT"
              ([], [ ("kv_pairs" : str, "action=ACCEPT" : str);
                     ("action" : str, "DROP" : str);
                     ("log_timestamp" : str,
                      "25/Dec/2024:10:00:00 -0500" : str);
                     ("pvefw_chain" : str, "PVEFW-HOST-IN" : str) ])
              [ ("action" : str, PStr "ACCEPT") ] "action")
    as (data & Hp & Hg);
    [vm_compute; reflexivity | vm_compute; reflexivity | discriminate
    | vm_compute; intuition discriminate |].
  exists data. split; [exact Hp|exact Hg].
Defined.

(** ** Quoting *)

Lemma escape_quotes_cons c (s : str) :
  escape_quotes (c :: s)
  = (if is_char "'" c then ["'"; "'"]%char else [c]) ++ escape_quotes s.
Proof. reflexivity. Qed.

Lemma is_quote_eq c : is_char "'" c = true -> c = "'"%char.
Proof. apply is_char_eq. Qed.

Lemma escape_quotes_without_quote (s : str) :
  forallb (fun c => negb (is_char "'" c)) s = true -> escape_quotes s = s.
Proof.
  induction s as [|c s IH]; intros H; [reflexivity|].
  cbn [forallb] in H. apply andb_true_iff in H as [Hc Hs].
  rewrite escape_quotes_cons. destruct (is_char "'" c); [discriminate|].
  cbn [app]. f_equal. now apply IH.
Qed.

(** X8.  Doubling the quotes loses nothing and leaves no quote alone:
    two different texts never escape to the same text, the escaped text
    holds exactly twice the quotes of the original, and a text without
    quotes is left as it is. *)
Theorem escape_quotes_faithful :
  (forall a b, escape_quotes a = escape_quotes b -> a = b)
  /\ (forall s,
        length (List.filter (is_char "'") (escape_quotes s))
        = 2 * length (List.filter (is_char "'") s))
  /\ (forall s, forallb (fun c => negb (is_char "'" c)) s = true ->
                escape_quotes s = s).
Proof.
  split; [|split].
  - induction a as [|c a IH]; intros [|d b] H.
    + reflexivity.
    + rewrite escape_quotes_cons in H.
      destruct (is_char "'" d); simpl in H; discriminate.
    + rewrite escape_quotes_cons in H.
      destruct (is_char "'" c); simpl in H; discriminate.
    + rewrite !escape_quotes_cons in H.
      destruct (is_char "'" c) eqn:Ec, (is_char "'" d) eqn:Ed.
      * apply is_quote_eq in Ec. apply is_quote_eq in Ed. subst c d.
        apply app_inv_head in H. f_equal. now apply IH.
      * inversion H; subst. cbv in Ed. discriminate.
      * inversion H; subst. cbv in Ec. discriminate.
      * inversion H; subst. f_equal. now apply IH.
  - induction s as [|c s IH]; [reflexivity|].
    rewrite escape_quotes_cons, List.filter_app, length_app, IH.
    destruct (is_char "'" c) eqn:E.
    + apply is_quote_eq in E. subst. simpl. lia.
    + cbn [List.filter app length]. rewrite !E. cbn [length]. lia.
  - apply escape_quotes_without_quote.
Qed.

(** ** The timestamp column *)








(** ** Reading the input *)

Lemma lines_from_concat (cur s : str) :
  List.concat (lines_from cur s) = rev cur ++ s.
Proof.
  revert cur. induction s as [|c s IH]; intros cur; simpl.
  - destruct cur; simpl; now rewrite ?app_nil_r.
  - destruct (code c =? 10); simpl; rewrite IH; simpl;
      now rewrite <- ?app_assoc.
Qed.

Lemma lines_from_shape (cur s : str) :
  forallb (fun c => negb (code c =? 10)) cur = true ->
  Forall (fun l => exists body,
            (l = body ++ nl \/ l = body) /\ l <> []
            /\ forallb (fun c => negb (code c =? 10)) body = true)
    (lines_from cur s).
Proof.
  revert cur. induction s as [|c s IH]; intros cur Hcur; simpl.
  - destruct cur as [|x cur]; constructor; [|constructor].
    exists (rev (x :: cur)). split; [now right|]. split.
    + simpl. now destruct (rev cur).
    + now rewrite forallb_reverse.
  - destruct (code c =? 10) eqn:E.
    + constructor; [|now apply IH].
      exists (rev cur). split; [left|split].
      * simpl. f_equal. unfold nl. f_equal.
        apply Nat.eqb_eq in E. unfold code in E.
        rewrite <- (ascii_nat_embedding c). now rewrite E.
      * simpl. now destruct (rev cur).
      * now rewrite forallb_reverse.
    + apply IH. simpl. now rewrite E.
Qed.

(** X11.  Iterating over the input loses no character: the lines,
    concatenated, are the text with its line ends normalised.  No line is
    empty, and a line feed stands only at the end of a line. *)
Theorem file_lines_partition_the_text (text : str) :
  List.concat (file_lines text) = universal_newlines text
  /\ Forall (fun l => exists body,
               (l = body ++ nl \/ l = body) /\ l <> []
               /\ forallb (fun c => negb (code c =? 10)) body = true)
       (file_lines text).
Proof.
  unfold file_lines. split.
  - apply lines_from_concat.
  - now apply lines_from_shape.
Qed.

(** ** Repeated keys and the schema's column names *)

Lemma find_eq_first (k v : str) :
  ~ In "="%char k -> find_sep ["="%char] (k ++ "="%char :: v) = Some (k, v).
Proof.
  induction k as [|c k IH]; intros H.
  - apply (find_sep_at_start ["="%char] v).
  - cbn [app find_sep strip_prefix]. destruct (Ascii.eqb "=" c) eqn:E.
    + apply Ascii.eqb_eq in E. exfalso. apply H. now left.
    + rewrite IH; [reflexivity|]. intros Hin. apply H. now right.
Qed.

Lemma dict_of_seqs_app (a b : list (list str)) acc :
  dict_of_seqs (a ++ b) acc
  = let* d := dict_of_seqs a acc in dict_of_seqs b d.
Proof.
  revert acc. induction a as [|x a IH]; intros acc; simpl; [reflexivity|].
  destruct x as [|k [|v [|y t]]]; try reflexivity. apply IH.
Qed.

Lemma dict_of_seqs_other_keys k (tokens : list str) acc kv :
  (forall tok v, In tok tokens -> tok <> k ++ "="%char :: v) ->
  dict_of_seqs (map (split1 "=") tokens) acc = Ok kv ->
  dict_get k kv = dict_get k acc.
Proof.
  revert acc. induction tokens as [|t tokens IH]; intros acc Hno; simpl.
  - intros H. now injection H as <-.
  - destruct (split1_char "=" t) as [[_ ->]|(k' & v' & -> & E)]; [discriminate|].
    change (split1 "=" (k' ++ "="%char :: v')) with
      (split1 ["="%char] (k' ++ "="%char :: v')).
    rewrite E. intros H.
    rewrite (IH _ (fun tok v Hin => Hno tok v (or_intror Hin)) H).
    rewrite dict_get_set. destruct (str_eqb k k') eqn:Ek; [|reflexivity].
    apply str_eqb_eq in Ek. subst k'. exfalso.
    apply (Hno (k ++ "="%char :: v') v'); [now left|reflexivity].
Qed.

(** X12.  When a key is given more than once in the tail, the last pair
    decides its value: if the tail's tokens are [before], then [k=v],
    then [after], and no token of [after] is a pair keyed [k], the parsed
    pairs hold [v] for [k]. *)
Theorem last_pair_of_a_key_wins (before after : list str) (k v : str) (kv : dict) :
  ~ In "="%char k ->
  (forall tok v', In tok after -> tok <> k ++ "="%char :: v') ->
  kv_pairs (before ++ (k ++ "="%char :: v) :: after) = Ok kv ->
  dict_get k kv = Some (PStr v).
Proof.
  intros Hk Hafter. unfold kv_pairs.
  rewrite map_app, dict_of_seqs_app. simpl map.
  destruct (dict_of_seqs (map _ before) []) as [d|e]; cbn [bind];
    [|intros H; discriminate H].
  unfold split1 at 1.
  change (find_sep "=" (k ++ "="%char :: v))
    with (find_sep ["="%char] (k ++ "="%char :: v)).
  rewrite (find_eq_first k v Hk). cbn [dict_of_seqs].
  intros H. rewrite (dict_of_seqs_other_keys k after _ kv Hafter H).
  now rewrite dict_get_set, str_eqb_refl.
Qed.

Lemma last_pair_of_a_key_wins_witness :
  dict_get "B"
    [ ("B" : str, PStr "3"); ("A" : str, PStr "2") ]
  = Some (PStr "3").
Proof.
  apply (last_pair_of_a_key_wins [ "B=1" : str; "A=2" : str ] [] "B" "3").
  - vm_compute. intuition discriminate.
  - intros tok v' [].
  - vm_compute. reflexivity.
Defined.

(** X13.  Whatever the table name, the CREATE TABLE statement names the
    column [id] twice: once for the surrogate key and once for the
    catalog's [ID] field, whose name is lower-cased like every other. *)
Theorem create_table_names_id_twice (table_name : str) :
  exists before middle after,
    create_table table_name
    = before ++ [ "    id INT AUTO_INCREMENT PRIMARY KEY," ++ nl ] ++ middle
      ++ [ column_line "ID" "INT" ] ++ after
    /\ column_line "ID" "INT" = "    id INT," ++ nl.
Proof.
  exists (firstn 2 (create_table table_name)),
         (firstn 13 (skipn 3 (create_table table_name))),
         (skipn 17 (create_table table_name)).
  split; vm_compute; reflexivity.
Qed.

(** ** Skipped lines and the lines around them *)

(** X14.  A line whose normalised text does not match the header pattern
    writes nothing and prints the header warning, and the run's output is
    that of the run without the line.  Put next to a line whose header
    matches and whose tokens all hold an [=], in either order, it leaves
    the CREATE TABLE part followed by that line's INSERT: one CREATE
    TABLE statement and one INSERT statement. *)
Theorem header_mismatch_line_is_passed_over
    (table_name line good : str) (m : mstate) (lines : list str) :
  re_match log_pattern (clean_line line) = None ->
  re_match log_pattern (clean_line good) = Some m ->
  Forall (fun tok => In "="%char tok) (split_ws (tail_of m)) ->
  lines = [good; line] \/ lines = [line; good] ->
  process_line table_name line
  = Ok (Skipped ("Warning: Skipping malformed line: " ++ strip line))
  /\ (forall before after,
        written (convert table_name (before ++ line :: after))
        = written (convert table_name (before ++ after)))
  /\ exists data,
       parse_line good = Ok (Record data)
       /\ written (convert table_name lines)
          = create_table table_name ++ [insert_sql table_name good data]
       /\ count_statements "CREATE TABLE" (written (convert table_name lines))
          = 1
       /\ count_statements "INSERT INTO" (written (convert table_name lines))
          = 1.
Proof.
  intros Hline Hm Hall Hlines.
  assert (Hskip : process_line table_name line
                  = Ok (Skipped ("Warning: Skipping malformed line: "
                                 ++ strip line))).
  { unfold process_line, parse_line. now rewrite Hline. }
  split; [exact Hskip|]. split.
  - intros before after. unfold convert. cbn [written].
    now destruct (skipped_line_leaves_output _ _ _ Hskip before after) as [-> _].
  - destruct (kv_pairs_all_tokens _ Hall) as (kv & Hkv).
    destruct (parse_line_record _ _ _ Hm Hkv)
      as (c & t & a & rest & _ & _ & _ & _ & Hp).
    match type of Hp with
    | _ = Ok (Record ?d) => remember d as data eqn:Hdata
    end.
    clear Hdata. exists data. split; [exact Hp|].
    assert (Hgood : process_line table_name good
                    = Ok (Inserted (insert_sql table_name good data))).
    { unfold process_line. rewrite Hp. reflexivity. }
    assert (Hw : written (convert table_name lines)
                 = create_table table_name
                   ++ [insert_sql table_name good data]).
    { unfold convert.
      destruct Hlines as [-> | ->]; cbn [for_lines]; rewrite Hgood, Hskip;
        cbn [for_lines written]; try rewrite Hgood; reflexivity. }
    split; [exact Hw|]. rewrite Hw, !count_statements_app.
    destruct (create_table_counts table_name) as [-> ->].
    split; reflexivity.
Qed.

Lemma header_mismatch_line_is_passed_over_witness :
  let line : str := "not a firewall line" ++ nl in
  let good : str :=
    "PVEFW-HOST-IN 25/Dec/2024:10:00:00 -0500 DROP: IN=eth0" ++ nl in
  re_match log_pattern (clean_line line) = None
  /\ exists data,
       parse_line good = Ok (Record data)
       /\ written (convert "t" [line; good])
          = create_table "t" ++ [insert_sql "t" good data]
       /\ count_statements "CREATE TABLE" (written (convert "t" [line; good]))
          = 1
       /\ count_statements "INSERT INTO" (written (convert "t" [line; good]))
          = 1.
Proof.
  intros line good. split; [vm_compute; reflexivity|].
  apply (header_mismatch_line_is_passed_over "t" line good
           ([], [ ("kv_pairs" : str, "IN=eth0" : str);
                  ("action" : str, "DROP" : str);
                  ("log_timestamp" : str,
                   "25/Dec/2024:10:00:00 -0500" : str);
                  ("pvefw_chain" : str, "PVEFW-HOST-IN" : str) ])
           [line; good]).
  - vm_compute. reflexivity.
  - vm_compute. reflexivity.
  - vm_compute. constructor; [auto 10|constructor].
  - now right.
Defined.

Lemma for_lines_app (table_name : str) (a b : list str) :
  written (for_lines table_name (a ++ b))
  = written (for_lines table_name a) ++ written (for_lines table_name b)
  /\ console (for_lines table_name (a ++ b))
     = console (for_lines table_name a) ++ console (for_lines table_name b).
Proof.
  induction a as [|line a [IH1 IH2]]; [now split|].
  cbn [app for_lines].
  destruct (process_line_total table_name line) as ([w|sql] & ->);
    cbn [written console]; rewrite IH1, IH2; now split.
Qed.

(** X15.  Lines are converted one by one and independently: the output
    of a run over two lists of lines put end to end is the output of the
    run over the first followed by the INSERTs of the second, and the
    warnings follow in the same way.  No line changes what another line
    gives. *)
Theorem run_is_linewise (table_name : str) (a b : list str) :
  written (convert table_name (a ++ b))
  = written (convert table_name a) ++ written (for_lines table_name b)
  /\ console (convert table_name (a ++ b))
     = console (convert table_name a) ++ console (for_lines table_name b)
  /\ written (for_lines table_name b)
     = flat_map
         (fun line =>
            match process_line table_name line with
            | Ok (Inserted sql) => [sql]
            | _ => []
            end) b.
Proof.
  unfold convert. cbn [written console].
  destruct (for_lines_app table_name a b) as [-> ->].
  rewrite app_assoc. repeat split.
  induction b as [|line b IH]; [reflexivity|].
  cbn [for_lines flat_map].
  destruct (process_line_total table_name line) as ([w|sql] & ->);
    cbn [written]; now rewrite IH.
Qed.
